(** * troubleshoot-llm: the log-analysis pipeline of [model_loader.py] and the
    aggregation of [api_server.py], as a shallow embedding.

    Text is modelled as [string], a sequence of 8-bit characters read as
    Latin-1 code points.  Python integers are [Z]; a Python list is a [list];
    the catalog [ERROR_PATTERNS], a dict literal iterated in insertion order,
    is an association list whose keys are shown to be distinct.  A call that
    may raise returns a [result]. *)

From Stdlib Require Import ZArith NArith Lia Bool Ascii.
From Stdlib Require QArith.
From stdpp Require Import base list strings.

Local Open Scope Z_scope.

(** ** Python [str] operations used by the pipeline *)

Module PyStr.

Definition code (c : ascii) : N := N_of_ascii c.

(** [str.isspace] on one character below 256: TAB..CR, FS..US, space,
    NEL and NBSP. *)
Definition isspace (c : ascii) : bool :=
  let n := code c in
  (((9 <=? n) && (n <=? 13)) || ((28 <=? n) && (n <=? 32))
   || (n =? 133) || (n =? 160))%N.

(** [str.lower] on one character below 256: A..Z and the Latin-1 capitals
    (all of 192..222 except the multiplication sign 215) move up by 32. *)
Definition lower_char (c : ascii) : ascii :=
  let n := code c in
  if (((65 <=? n) && (n <=? 90))
      || ((192 <=? n) && (n <=? 222) && negb (n =? 215)))%N
  then ascii_of_N (n + 32) else c.

Fixpoint lower (s : string) : string :=
  match s with
  | EmptyString => EmptyString
  | String c s' => String (lower_char c) (lower s')
  end.

Definition is_empty (s : string) : bool :=
  match s with EmptyString => true | String _ _ => false end.

Fixpoint lstrip (s : string) : string :=
  match s with
  | EmptyString => EmptyString
  | String c s' => if isspace c then lstrip s' else s
  end.

Fixpoint rstrip (s : string) : string :=
  match s with
  | EmptyString => EmptyString
  | String c s' =>
      let r := rstrip s' in
      if isspace c && is_empty r then EmptyString else String c r
  end.

(** [s.strip()] *)
Definition strip (s : string) : string := rstrip (lstrip s).

Fixpoint startswith (p s : string) : bool :=
  match p, s with
  | EmptyString, _ => true
  | String a p', String b s' => if ascii_dec a b then startswith p' s' else false
  | String _ _, EmptyString => false
  end.

(** [needle in hay] *)
Fixpoint contains (needle hay : string) : bool :=
  startswith needle hay
  || match hay with
     | EmptyString => false
     | String _ hay' => contains needle hay'
     end.

(** [sep.join(l)] *)
Fixpoint join (sep : string) (l : list string) : string :=
  match l with
  | [] => EmptyString
  | [x] => x
  | x :: l' => x +:+ sep +:+ join sep l'
  end.

(** [any(k in s for k in keys)] *)
Definition contains_any (keys : list string) (s : string) : bool :=
  existsb (fun k => contains k s) keys.

Fixpoint chars (s : string) : list ascii :=
  match s with
  | EmptyString => []
  | String c s' => c :: chars s'
  end.

End PyStr.

(** ** The fragment of Python [re] the catalog is written in *)

Module Re.

Inductive regex : Type :=
| Void : regex
| Eps : regex
| Chr : ascii -> regex
| Dot : regex
| Cat : regex -> regex -> regex
| Alt : regex -> regex -> regex
| Star : regex -> regex.

(** [.] without [re.DOTALL]: every character but the line feed. *)
Definition dot_ok (c : ascii) : bool := negb (PyStr.code c =? 10)%N.

(** The language of a regex, as a relation on whole strings. *)
Inductive matches : regex -> string -> Prop :=
| m_eps : matches Eps EmptyString
| m_chr c : matches (Chr c) (String c EmptyString)
| m_dot c : dot_ok c = true -> matches Dot (String c EmptyString)
| m_cat r1 r2 s1 s2 :
    matches r1 s1 -> matches r2 s2 -> matches (Cat r1 r2) (s1 +:+ s2)
| m_alt_l r1 r2 s : matches r1 s -> matches (Alt r1 r2) s
| m_alt_r r1 r2 s : matches r2 s -> matches (Alt r1 r2) s
| m_star_nil r : matches (Star r) EmptyString
| m_star_cons r s1 s2 :
    matches r s1 -> matches (Star r) s2 -> matches (Star r) (s1 +:+ s2).

Fixpoint nullable (r : regex) : bool :=
  match r with
  | Void | Chr _ | Dot => false
  | Eps | Star _ => true
  | Cat r1 r2 => nullable r1 && nullable r2
  | Alt r1 r2 => nullable r1 || nullable r2
  end.

Definition is_void (r : regex) : bool :=
  match r with Void => true | _ => false end.

Definition mkCat (r1 r2 : regex) : regex :=
  match r1 with
  | Void => Void
  | Eps => r2
  | _ => if is_void r2 then Void else Cat r1 r2
  end.

Definition mkAlt (r1 r2 : regex) : regex :=
  match r1 with
  | Void => r2
  | _ => if is_void r2 then r1 else Alt r1 r2
  end.

(** Brzozowski derivative. *)
Fixpoint deriv (c : ascii) (r : regex) : regex :=
  match r with
  | Void | Eps => Void
  | Chr a => if ascii_dec a c then Eps else Void
  | Dot => if dot_ok c then Eps else Void
  | Cat r1 r2 =>
      if nullable r1
      then mkAlt (mkCat (deriv c r1) r2) (deriv c r2)
      else mkCat (deriv c r1) r2
  | Alt r1 r2 => mkAlt (deriv c r1) (deriv c r2)
  | Star r1 => mkCat (deriv c r1) (Star r1)
  end.

(** Some prefix of [s] is in the language of [r]: [re.match]. *)
Fixpoint match_prefix (r : regex) (s : string) : bool :=
  nullable r
  || match s with
     | EmptyString => false
     | String c s' => match_prefix (deriv c r) s'
     end.

(** Some substring of [s] is in the language of [r]: the truth value of
    [re.search]. *)
Fixpoint search (r : regex) (s : string) : bool :=
  match_prefix r s
  || match s with
     | EmptyString => false
     | String _ s' => search r s'
     end.

(** *** Reading a pattern

    Literal characters, [.], a postfix [*] and [|] between branches are
    read; a pattern that uses any other metacharacter is refused. *)

Definition is_meta (c : ascii) : bool :=
  PyStr.contains (String c EmptyString) "\^$+?{}[]()*|".

Definition atom (c : ascii) : regex :=
  if ascii_dec c "."%char then Dot else Chr c.

Fixpoint parse_branch (s : string) : option regex :=
  match s with
  | EmptyString => Some Eps
  | String c s' =>
      if is_meta c then None
      else match s' with
           | String "*"%char s'' =>
               option_map (Cat (Star (atom c))) (parse_branch s'')
           | _ => option_map (Cat (atom c)) (parse_branch s')
           end
  end.

(** The branches of a pattern: the text between the [|]. *)
Fixpoint branches (cur : string) (s : string) : list string :=
  match s with
  | EmptyString => [cur]
  | String c s' =>
      if ascii_dec c "|"%char then cur :: branches EmptyString s'
      else branches (cur +:+ String c EmptyString) s'
  end.

Fixpoint parse_alts (bs : list string) : option regex :=
  match bs with
  | [] => Some Void
  | [b] => parse_branch b
  | b :: bs' =>
      match parse_branch b, parse_alts bs' with
      | Some r, Some r' => Some (Alt r r')
      | _, _ => None
      end
  end.

Definition compile (pattern : string) : option regex :=
  parse_alts (branches EmptyString pattern).

(** [bool(re.search(pattern, text))] *)
Definition re_search (pattern text : string) : bool :=
  match compile pattern with
  | Some r => search r text
  | None => false
  end.

(** [re.split(r'[\n\r]+', text)]: the fields between maximal runs of line
    feeds and carriage returns; a run at either end leaves an empty field
    there. *)
Definition is_nl (c : ascii) : bool :=
  ((PyStr.code c =? 10) || (PyStr.code c =? 13))%N.

Fixpoint split_lines_from (cur : string) (in_run : bool) (s : string)
  : list string :=
  match s with
  | EmptyString => [cur]
  | String c s' =>
      if is_nl c then
        if in_run then split_lines_from EmptyString true s'
        else cur :: split_lines_from EmptyString true s'
      else split_lines_from (cur +:+ String c EmptyString) false s'
  end.

Definition split_lines (text : string) : list string :=
  split_lines_from EmptyString false text.

End Re.

(** ** Calls that may raise *)

Inductive exn : Type :=
| Exception (msg : string)
| HTTPException (status_code : Z) (detail : string).

Inductive result (A : Type) : Type :=
| Ok (a : A)
| Raise (e : exn).

Arguments Ok {A} a.
Arguments Raise {A} e.

(** Sequencing: the first raise ends the computation. *)
#[global] Instance result_bind : MBind result :=
  fun A B (k : A -> result B) (m : result A) =>
    match m with
    | Ok a => k a
    | Raise e => Raise e
    end.

(** ** [model_loader.py] *)

Module ModelLoader.
Import PyStr Re.

(** The catalog, in the order the dict literal lists it. *)
Definition ERROR_PATTERNS : list (string * string) :=
  [ (* Helm specific errors *)
    ("helm.*release.*failed", "Helm release installation or upgrade failed");
    ("chart.*requires.*kubernetes.*version", "Kubernetes version compatibility issue");
    ("failed.*to.*install.*chart", "Chart installation failure");
    ("helm.*upgrade.*failed", "Helm upgrade failure");
    ("chart.*not.*found", "Chart not found in repository");
    (* KOTS specific errors *)
    ("kots.*install.*failed", "KOTS installation failure");
    ("kots.*upgrade.*failed", "KOTS upgrade failure");
    ("kots.*version.*incompatible", "KOTS version compatibility issue");
    ("kots.*config.*invalid", "Invalid KOTS configuration");
    ("kots.*license.*invalid", "Invalid or expired KOTS license");
    (* Kubernetes common errors *)
    ("image.*pull.*failed", "Container image pull failure");
    ("pod.*crash.*loop", "Pod crash loop detected");
    ("insufficient.*cpu|insufficient.*memory", "Resource constraints");
    ("persistentvolumeclaim.*not.*found", "Storage/PVC issue");
    ("service.*not.*found", "Service discovery issue");
    ("configmap.*not.*found", "Configuration issue");
    ("secret.*not.*found", "Secret/credential issue");
    ("node.*not.*ready", "Node health issue");
    ("network.*policy.*denied", "Network policy restriction");
    ("rbac.*forbidden", "RBAC permission issue");
    (* Common infrastructure errors *)
    ("connection.*refused", "Network connectivity issue");
    ("permission.*denied", "Access control or permissions issue");
    ("timeout", "Resource exhaustion or network latency");
    ("out of memory", "Resource exhaustion");
    ("not found", "Missing resource or configuration");
    ("already exists", "Resource conflict");
    ("invalid.*format", "Data format or syntax error");
    ("authentication.*failed", "Credentials or authentication issue");
    ("dependency.*missing", "Missing dependency or package");
    ("port.*in use", "Resource conflict - port already in use") ].

Definition KEYWORDS : list string :=
  ["error"; "exception"; "failed"; "fatal"; "critical"; "warning"].

(** [any(keyword in line.lower() for keyword in KEYWORDS)] *)
Definition is_error_line (line : string) : bool :=
  contains_any KEYWORDS (lower line).

(** [[line.strip() for line in re.split(r'[\n\r]+', text) if line.strip()]] *)
Definition clean_lines (text : string) : list string :=
  map strip
    (List.filter (fun line => negb (is_empty (strip line))) (split_lines text)).

(** [l[start:stop]] for bounds that are not negative. *)
Definition slice {A : Type} (l : list A) (start stop : Z) : list A :=
  take (Z.to_nat (stop - start)) (drop (Z.to_nat start) l).

(** The [for i, line in enumerate(lines)] loop: [rest] is what is left to
    visit, [i] the index of its head, [error_lines] the accumulator. *)
Fixpoint scan_lines (lines : list string) (i : Z) (rest : list string)
    (error_lines : list string) : list string :=
  match rest with
  | [] => error_lines
  | line :: rest' =>
      let error_lines' :=
        if is_error_line line then
          let start := Z.max 0 (i - 2) in
          let stop := Z.min (Z.of_nat (length lines)) (i + 3) in
          let context := slice lines start stop in
          error_lines ++ context
        else error_lines in
      scan_lines lines (i + 1) rest' error_lines'
  end.

Definition extract_error_context (text : string) : list string :=
  let lines := clean_lines text in
  let error_lines := scan_lines lines 0 lines [] in
  match error_lines with
  | [] => lines
  | _ :: _ => error_lines
  end.

Definition identify_patterns (text : string) : list (string * string) :=
  fold_left
    (fun matches (entry : string * string) =>
       let '(pattern, cause) := entry in
       if re_search pattern (lower text)
       then matches ++ [(pattern, cause)]
       else matches)
    ERROR_PATTERNS [].

Definition helm_steps : list string :=
  [ "Check Helm chart version compatibility";
    "Verify Helm repository access";
    "Review Helm values and configuration";
    "Check Kubernetes version requirements" ].

Definition kots_steps : list string :=
  [ "Verify KOTS license validity";
    "Check KOTS version compatibility";
    "Review KOTS configuration";
    "Check application requirements" ].

Definition kubernetes_steps : list string :=
  [ "Check Kubernetes cluster health";
    "Verify resource availability";
    "Review pod and service status";
    "Check network policies" ].

Definition network_steps : list string :=
  [ "Check network connectivity";
    "Verify firewall settings";
    "Confirm service is running on the expected port";
    "Check network policies" ].

Definition permission_steps : list string :=
  [ "Verify user permissions";
    "Check RBAC settings";
    "Review security contexts";
    "Check service account permissions" ].

Definition resource_steps : list string :=
  [ "Check system resources (CPU, memory, disk)";
    "Review resource limits and quotas";
    "Consider scaling resources";
    "Check node capacity" ].

Definition generic_steps : list string :=
  [ "Review the error context for more details";
    "Check system logs for related errors";
    "Verify configuration settings";
    "Check application status" ].

Definition get_next_steps (root_cause : string) : list string :=
  if contains "helm" (lower root_cause) then helm_steps
  else if contains "kots" (lower root_cause) then kots_steps
  else if contains "kubernetes" (lower root_cause) then kubernetes_steps
  else if contains "network" (lower root_cause) then network_steps
  else if contains "permission" (lower root_cause) then permission_steps
  else if contains "resource" (lower root_cause) then resource_steps
  else generic_steps.

(** The dict [analyze_log] returns; its callers add the [timestamp]. *)
Record Diagnosis : Type := {
  root_cause : string;
  confidence : string;
  next_steps : list string;
  context : string;
  timestamp : option string
}.

(** The pretrained tokenizer and model, loaded once at import.  Their
    arithmetic is outside the embedding: [tokenizer] stands for the call
    with [truncation=True, max_length=512], [model] for the forward pass
    that yields the logits, and [confidence_of] for the softmax, the
    maximum over classes and the [:.2f] formatting. *)
Record Classifier : Type := {
  tokens : Type;
  logits : Type;
  tokenizer : string -> result tokens;
  model : tokens -> result logits;
  confidence_of : logits -> string
}.

(** [any(x in m[1].lower() for x in ['helm', 'kots'])] *)
Definition mentions_helm_or_kots (m : string * string) : bool :=
  contains_any ["helm"; "kots"] (lower m.2).

Definition newline : string := String (ascii_of_N 10) EmptyString.

Definition analyze_log (clf : Classifier) (text : string) : result Diagnosis :=
  let error_context := extract_error_context text in
  let context_text := join newline error_context in
  let pattern_matches := identify_patterns text in
  inputs ← tokenizer clf context_text;
  outputs ← model clf inputs;
  let confidence := confidence_of clf outputs in
  let root_cause :=
    match pattern_matches with
    | [] => "Unknown issue"
    | first :: _ =>
        let helm_kots_matches := List.filter mentions_helm_or_kots pattern_matches in
        match helm_kots_matches with
        | m :: _ => m.2
        | [] => first.2
        end
    end in
  let next_steps := get_next_steps root_cause in
  Ok {| root_cause := root_cause;
        confidence := confidence;
        next_steps := next_steps;
        context := context_text;
        timestamp := None |}.

End ModelLoader.

(** ** [api_server.py]: the consolidated analysis *)

Module ApiServer.
Import PyStr ModelLoader.

Record LogFileResponse : Type := {
  filename : string;
  analysis : Diagnosis
}.

(** An entry of [critical_issues] or of [warnings]; the dict of a warning
    has no ["context"] key. *)
Record Issue : Type := {
  source : string;
  file : string;
  issue : string;
  issue_confidence : string;
  issue_next_steps : list string;
  issue_context : option string
}.

Record SystemStatus : Type := {
  status : string;
  critical_issues_count : Z;
  warnings_count : Z;
  log_sources_available : Z
}.

Record ConsolidatedAnalysisResponse : Type := {
  critical_issues : list Issue;
  warnings : list Issue;
  system_status : SystemStatus;
  log_sources_analyzed : list string;
  response_timestamp : string
}.

(** ["error" in rc.lower() or "fail" in rc.lower()], with
    [rc = log["analysis"]["root_cause"]] *)
Definition is_critical (log : LogFileResponse) : bool :=
  contains "error" (lower (root_cause (analysis log)))
  || contains "fail" (lower (root_cause (analysis log))).

Definition critical_issue (src : string) (log : LogFileResponse) : Issue :=
  {| source := src;
     file := filename log;
     issue := root_cause (analysis log);
     issue_confidence := confidence (analysis log);
     issue_next_steps := next_steps (analysis log);
     issue_context := Some (context (analysis log)) |}.

Definition warning (src : string) (log : LogFileResponse) : Issue :=
  {| source := src;
     file := filename log;
     issue := root_cause (analysis log);
     issue_confidence := confidence (analysis log);
     issue_next_steps := next_steps (analysis log);
     issue_context := None |}.

(** The three lists the handler appends to. *)
Record Lists : Type := {
  l_critical : list Issue;
  l_warnings : list Issue;
  l_sources : list string
}.

Definition add_source (src : string) (st : Lists) : Lists :=
  {| l_critical := l_critical st;
     l_warnings := l_warnings st;
     l_sources := l_sources st ++ [src] |}.

(** The body of each [for log in ...] loop, and of the syslog branch. *)
Definition classify (src : string) (st : Lists) (log : LogFileResponse) : Lists :=
  if is_critical log then
    {| l_critical := l_critical st ++ [critical_issue src log];
       l_warnings := l_warnings st;
       l_sources := l_sources st |}
  else
    {| l_critical := l_critical st;
       l_warnings := l_warnings st ++ [warning src log];
       l_sources := l_sources st |}.

(** [if logs: analyzed_sources.append(src); for log in logs: ...] *)
Definition analyze_source (src : string) (logs : list LogFileResponse)
    (st : Lists) : Lists :=
  match logs with
  | [] => st
  | _ :: _ => fold_left (classify src) logs (add_source src st)
  end.

Section Handler.
(** The three per-source endpoints the handler awaits, the clock, and the
    text [str(e)] of an exception. *)
Variable analyze_embedded_cluster_logs : Z -> result (list LogFileResponse).
Variable analyze_pod_logs : Z -> result (list LogFileResponse).
Variable analyze_syslog : Z -> result LogFileResponse.
Variable now_isoformat : string.
Variable str : exn -> string.

Definition collect (hours : Z) : result Lists :=
  let st := {| l_critical := []; l_warnings := []; l_sources := [] |} in
  embedded_logs ← analyze_embedded_cluster_logs hours;
  let st := analyze_source "embedded-cluster" embedded_logs st in
  pod_logs ← analyze_pod_logs hours;
  let st := analyze_source "pods" pod_logs st in
  match analyze_syslog hours with
  | Ok syslog => Ok (classify "syslog" (add_source "syslog" st) syslog)
  | Raise (HTTPException _ _) => Ok st
  | Raise e => Raise e
  end.

Definition analyze_all_logs (hours : Z) : result ConsolidatedAnalysisResponse :=
  match collect hours with
  | Ok st =>
      let system_status :=
        {| status := match l_critical st with
                     | [] => "healthy"
                     | _ :: _ => "unhealthy"
                     end;
           critical_issues_count := Z.of_nat (length (l_critical st));
           warnings_count := Z.of_nat (length (l_warnings st));
           log_sources_available := Z.of_nat (length (l_sources st)) |} in
      Ok {| critical_issues := l_critical st;
            warnings := l_warnings st;
            system_status := system_status;
            log_sources_analyzed := l_sources st;
            response_timestamp := now_isoformat |}
  | Raise e =>
      Raise (HTTPException 500 ("Error analyzing all logs: " +:+ str e))
  end.
End Handler.

End ApiServer.

(** ** What the specification says, in its own words

    These definitions follow the prose of the specification; the theorems
    below compare them with the functions embedded from the source. *)

Module Spec.
Import PyStr Re ModelLoader.

(** The catalog entries whose signature occurs in the lowercased text, in
    catalog order. *)
Definition matched (text : string) : list (string * string) :=
  List.filter (fun e => re_search e.1 (lower text)) ERROR_PATTERNS.

Definition label_mentions (keyword label : string) : bool :=
  contains keyword (lower label).

(** Root cause: the first matched label mentioning helm or kots, else the
    first matched label, else the literal. *)
Definition resolved_root_cause (text : string) : string :=
  match List.find
          (fun e => label_mentions "helm" e.2 || label_mentions "kots" e.2)
          (matched text) with
  | Some e => e.2
  | None =>
      match matched text with
      | e :: _ => e.2
      | [] => "Unknown issue"
      end
  end.

(** Remediation: an ordered list of (keyword, steps), first match wins. *)
Definition STEP_TABLE : list (string * list string) :=
  [ ("helm", helm_steps);
    ("kots", kots_steps);
    ("kubernetes", kubernetes_steps);
    ("network", network_steps);
    ("permission", permission_steps);
    ("resource", resource_steps) ].

Definition steps_for (label : string) : list string :=
  match List.find (fun e => label_mentions e.1 label) STEP_TABLE with
  | Some e => e.2
  | None => generic_steps
  end.

(** A line made of whitespace only (the empty line included). *)
Definition whitespace_only (s : string) : bool := forallb isspace (chars s).

(** The cleaned line sequence: split on runs of line feeds and carriage
    returns, drop the whitespace-only lines, strip the others. *)
Definition cleaned_line_sequence (text : string) : list string :=
  map strip (List.filter (fun l => negb (whitespace_only l)) (split_lines text)).

(** The Helm group of the catalog (its first five entries) and, within it,
    the entries whose label names neither helm nor kots. *)
Definition helm_group : list (string * string) := take 5 ERROR_PATTERNS.

Definition helm_group_unnamed : list (string * string) :=
  List.filter (fun e => negb (mentions_helm_or_kots e)) helm_group.

(** The context string handed to the classifier: the extracted lines,
    joined by line feeds. *)
Definition context_text_of (text : string) : string :=
  join newline (extract_error_context text).

(** The failures of inference: the tokenizer raises, or the forward pass
    does. *)
Definition inference_raises (clf : Classifier) (text : string) (e : exn) : Prop :=
  tokenizer clf (context_text_of text) = Raise e
  ∨ ∃ inputs, tokenizer clf (context_text_of text) = Ok inputs
              ∧ model clf inputs = Raise e.

End Spec.

(** ** Concrete classifiers and sources used to run the model *)

Module Samples.
Import PyStr ModelLoader ApiServer.

(** A classifier whose inference always succeeds with a fixed score. *)
Definition steady (score : string) : Classifier :=
  {| tokens := string;
     logits := unit;
     tokenizer := fun s => Ok s;
     model := fun _ => Ok tt;
     confidence_of := fun _ => score |}.

(** A classifier whose forward pass raises. *)
Definition broken : Classifier :=
  {| tokens := string;
     logits := unit;
     tokenizer := fun s => Ok s;
     model := fun _ => Raise (Exception "CUDA out of memory");
     confidence_of := fun _ => "1.00" |}.

Definition helm_text : string :=
  "Error: helm release failed to install chart myapp".

Definition info_text : string :=
  "INFO: pod myapp-123 started successfully".

Definition k8s_version_text : string :=
  "chart requires kubernetes version 1.24".

Definition lines_text (lines : list string) : string := join newline lines.

Definition two_line_text : string :=
  lines_text ["  INFO: pod myapp-123 started successfully"; "   "; "ready "].

Definition eight_line_text : string :=
  lines_text ["a"; "b"; " an Error "; "c"; "FAILED x"; "d"; "e"; "f"].

Definition diagnose_with (score : string) (text : string) : Diagnosis :=
  match analyze_log (steady score) text with
  | Ok d => d
  | Raise _ =>
      {| root_cause := ""; confidence := ""; next_steps := [];
         context := ""; timestamp := None |}
  end.

Definition diagnose (text : string) : Diagnosis := diagnose_with "0.53" text.

Definition embedded_sample (_ : Z) : result (list LogFileResponse) :=
  Ok [ {| filename := "install.log"; analysis := diagnose helm_text |};
       {| filename := "journalctl-k0scontroller.service";
          analysis := diagnose info_text |} ].

Definition pods_sample (_ : Z) : result (list LogFileResponse) := Ok [].

Definition syslog_sample (_ : Z) : result LogFileResponse :=
  Raise (HTTPException 500 "Error analyzing syslog: ").

Definition str_sample (e : exn) : string :=
  match e with
  | Exception msg => msg
  | HTTPException _ detail => detail
  end.

Definition run_sample (hours : Z) : result ConsolidatedAnalysisResponse :=
  analyze_all_logs embedded_sample pods_sample syslog_sample
    "2025-01-01T00:00:00" str_sample hours.

Definition report_sample : ConsolidatedAnalysisResponse :=
  match run_sample 24 with
  | Ok report => report
  | Raise _ =>
      {| critical_issues := []; warnings := [];
         system_status := {| status := ""; critical_issues_count := 0;
                             warnings_count := 0;
                             log_sources_available := 0 |};
         log_sources_analyzed := []; response_timestamp := "" |}
  end.

End Samples.

(** ** The aggregation, in the words of the specification *)

Module Aggregate.
Import PyStr ModelLoader ApiServer.

(** A root cause is critical when it contains "error" or "fail",
    case-insensitively. *)
Definition critical_text (root_cause : string) : bool :=
  contains "error" (lower root_cause) || contains "fail" (lower root_cause).

Definition critical_log (sl : string * LogFileResponse) : bool :=
  critical_text (root_cause (analysis sl.2)).

(** The Diagnoses of one aggregation, each with the name of its source, in
    the order the handler goes through them; a syslog that is not
    available contributes none. *)
Definition visited (embedded_logs pod_logs : list LogFileResponse)
    (syslog : result LogFileResponse) : list (string * LogFileResponse) :=
  map (pair "embedded-cluster") embedded_logs
  ++ map (pair "pods") pod_logs
  ++ match syslog with
     | Ok log => [("syslog", log)]
     | Raise _ => []
     end.

End Aggregate.

(** ** POSIX paths, as [os.path] and [str.split] treat them *)

Module PosixPath.
Import PyStr.

(** [s.endswith('/')] *)
Fixpoint ends_with_sep (s : string) : bool :=
  match s with
  | EmptyString => false
  | String c EmptyString => if ascii_dec c "/"%char then true else false
  | String _ s' => ends_with_sep s'
  end.

(** [os.path.join(path, b)] of [posixpath]: an absolute [b] replaces what
    came before; otherwise [b] is appended, after a separator unless [path]
    is empty or already ends with one. *)
Definition join (path b : string) : string :=
  if startswith "/" b then b
  else if is_empty path || ends_with_sep path then path +:+ b
  else path +:+ "/" +:+ b.

(** [s.split('/')] *)
Fixpoint split_from (cur : string) (s : string) : list string :=
  match s with
  | EmptyString => [cur]
  | String c s' =>
      if ascii_dec c "/"%char then cur :: split_from EmptyString s'
      else split_from (cur +:+ String c EmptyString) s'
  end.

Definition split (s : string) : list string := split_from EmptyString s.

(** [os.path.basename(p)]: [p[p.rfind('/') + 1:]] *)
Fixpoint basename_from (cur : string) (p : string) : string :=
  match p with
  | EmptyString => cur
  | String c p' =>
      if ascii_dec c "/"%char then basename_from EmptyString p'
      else basename_from (cur +:+ String c EmptyString) p'
  end.

Definition basename (p : string) : string := basename_from EmptyString p.

End PosixPath.

(** ** [api_server.py]: the per-source endpoints

    The operating system is a record of what each call returns during one
    request: the file system and the clock are read as of the request.
    POSIX timestamps, floats in the source, are rationals; only their order
    is used. *)

Module Endpoints.
Import PyStr ModelLoader ApiServer.

Record World : Type := {
  (** the tokenizer and model loaded at import *)
  classifier : Classifier;
  (** [os.path.exists(path)] *)
  path_exists : string -> bool;
  (** [glob.glob(pattern)], also with [recursive=True] *)
  glob : string -> list string;
  (** [os.path.getmtime(path)] *)
  getmtime : string -> result QArith_base.Q;
  (** naive local datetimes *)
  datetime : Type;
  (** [datetime.now() - timedelta(hours=hours)] *)
  cutoff_time : Z -> result datetime;
  (** [dt.timestamp()] *)
  timestamp_of : datetime -> result QArith_base.Q;
  (** [datetime.fromtimestamp(t).isoformat()] *)
  fromtimestamp_isoformat : QArith_base.Q -> result string;
  (** [datetime.now().isoformat()] *)
  now_isoformat : string;
  (** [with open(path, 'r') as f: f.read()] *)
  open_read : string -> result string;
  (** [subprocess.run(["journalctl", "--since", f"{hours} hours ago",
      "--no-pager", "-u", service], capture_output=True, text=True).stdout] *)
  journalctl : string -> Z -> result string;
  (** [str(e)] *)
  str : exn -> string
}.

(** [result["timestamp"] = ts] *)
Definition set_timestamp (d : Diagnosis) (ts : string) : Diagnosis :=
  {| root_cause := root_cause d;
     confidence := confidence d;
     next_steps := next_steps d;
     context := context d;
     timestamp := Some ts |}.

(** [try: ... except Exception as e: raise HTTPException(500, prefix + str(e))] *)
Definition or_500 {A : Type} (w : World) (prefix : string) (m : result A)
  : result A :=
  match m with
  | Ok a => Ok a
  | Raise e => Raise (HTTPException 500 (prefix +:+ str w e))
  end.

Definition get_journalctl_logs (w : World) (service : string) (hours : Z)
  : string :=
  match journalctl w service hours with
  | Ok stdout => stdout
  | Raise e => "Error getting journalctl logs: " +:+ str w e
  end.

(** [if x:] on an optional string: [None] and the empty string are false. *)
Definition truthy (x : option string) : bool :=
  match x with
  | Some s => negb (is_empty s)
  | None => false
  end.

Definition search_pattern (log_dir : string) (namespace pod_name : option string)
  : string :=
  let search_pattern := log_dir in
  let search_pattern :=
    match namespace with
    | Some ns =>
        if truthy namespace then PosixPath.join search_pattern (ns +:+ "_*")
        else search_pattern
    | None => search_pattern
    end in
  let search_pattern :=
    match pod_name with
    | Some pn =>
        if truthy pod_name
        then PosixPath.join search_pattern ("*_" +:+ pn +:+ "_*")
        else search_pattern
    | None => search_pattern
    end in
  PosixPath.join search_pattern "*.log".

(** [path_parts[-2] if len(path_parts) > 1 else "unknown"] *)
Definition pod_info (log_file : string) : string :=
  let path_parts := PosixPath.split log_file in
  if (1 <? Z.of_nat (length path_parts))%Z
  then nth (length path_parts - 2) path_parts EmptyString
  else "unknown".

(** The body of the [try] in the loop of [get_pod_logs]. *)
Definition pod_entry (w : World) (log_file : string) : result LogFileResponse :=
  log_text ← open_read w log_file;
  result ← analyze_log (classifier w) log_text;
  mtime ← getmtime w log_file;
  ts ← fromtimestamp_isoformat w mtime;
  Ok {| filename := pod_info log_file +:+ "/" +:+ PosixPath.basename log_file;
        analysis := set_timestamp result ts |}.

(** The loop of [get_pod_logs]: the entries collected so far and the lines
    printed so far. *)
Fixpoint pod_loop (w : World) (cutoff : datetime w) (files : list string)
    (results : list LogFileResponse) (printed : list string)
  : result (list LogFileResponse * list string) :=
  match files with
  | [] => Ok (results, printed)
  | log_file :: files' =>
      mtime ← getmtime w log_file;
      limit ← timestamp_of w cutoff;
      if QArith_base.Qle_bool limit mtime then
        match pod_entry w log_file with
        | Ok entry => pod_loop w cutoff files' (results ++ [entry]) printed
        | Raise e =>
            pod_loop w cutoff files' results
              (printed ++ ["Error reading log file " +:+ log_file +:+ ": "
                           +:+ str w e])
        end
      else pod_loop w cutoff files' results printed
  end.

(** Returns the entries and what was printed. *)
Definition get_pod_logs (w : World) (log_dir : string)
    (namespace pod_name : option string) (hours : Z)
  : result (list LogFileResponse * list string) :=
  if negb (path_exists w log_dir) then Ok ([], [])
  else
    cutoff ← cutoff_time w hours;
    pod_loop w cutoff (glob w (search_pattern log_dir namespace pod_name)) [] [].

(** One [for log_file in glob.glob(...)] loop of
    [analyze_embedded_cluster_logs]. *)
Fixpoint file_loop (w : World) (hours : Z) (files : list string)
    (results : list LogFileResponse) : result (list LogFileResponse) :=
  match files with
  | [] => Ok results
  | log_file :: files' =>
      mtime ← getmtime w log_file;
      cutoff ← cutoff_time w hours;
      limit ← timestamp_of w cutoff;
      if QArith_base.Qle_bool limit mtime then
        log_text ← open_read w log_file;
        result ← analyze_log (classifier w) log_text;
        mtime' ← getmtime w log_file;
        ts ← fromtimestamp_isoformat w mtime';
        file_loop w hours files'
          (results ++ [ {| filename := PosixPath.basename log_file;
                           analysis := set_timestamp result ts |} ])
      else file_loop w hours files' results
  end.

Definition dir_logs (w : World) (hours : Z) (log_dir : string)
    (results : list LogFileResponse) : result (list LogFileResponse) :=
  if path_exists w log_dir
  then file_loop w hours (glob w (log_dir +:+ "/*.log")) results
  else Ok results.

Definition SERVICES : list string :=
  ["k0scontroller.service"; "k0sworker.service"; "local-artifact-mirror.service"].

Fixpoint service_loop (w : World) (hours : Z) (services : list string)
    (results : list LogFileResponse) : result (list LogFileResponse) :=
  match services with
  | [] => Ok results
  | service :: services' =>
      let log_text := get_journalctl_logs w service hours in
      if negb (is_empty log_text) then
        result ← analyze_log (classifier w) log_text;
        service_loop w hours services'
          (results ++ [ {| filename := "journalctl-" +:+ service;
                           analysis := set_timestamp result (now_isoformat w) |} ])
      else service_loop w hours services' results
  end.

Definition analyze_embedded_cluster_logs (w : World) (hours : Z)
  : result (list LogFileResponse) :=
  or_500 w "Error analyzing embedded-cluster logs: "
    (results ← dir_logs w hours "/logs/embedded-cluster" [];
     results ← dir_logs w hours "/logs/embedded-cluster-data/logs" results;
     service_loop w hours SERVICES results).

(** The lines [get_pod_logs] prints are not part of the response. *)
Definition analyze_pod_logs (w : World) (namespace pod_name : option string)
    (hours : Z) : result (list LogFileResponse) :=
  or_500 w "Error analyzing pod logs: "
    (out ← get_pod_logs w "/logs/pods" namespace pod_name hours; Ok out.1).

Definition analyze_syslog (w : World) (hours : Z) : result LogFileResponse :=
  or_500 w "Error analyzing syslog: "
    (let syslog_path := "/logs/syslog" in
     if negb (path_exists w syslog_path)
     then Raise (HTTPException 404 "Syslog file not found")
     else
       log_text ← open_read w syslog_path;
       result ← analyze_log (classifier w) log_text;
       mtime ← getmtime w syslog_path;
       ts ← fromtimestamp_isoformat w mtime;
       Ok {| filename := "syslog"; analysis := set_timestamp result ts |}).

(** [analyze_all_logs] with the endpoints it awaits. *)
Definition analyze_all (w : World) (hours : Z)
  : result ConsolidatedAnalysisResponse :=
  analyze_all_logs (analyze_embedded_cluster_logs w)
    (analyze_pod_logs w None None) (analyze_syslog w)
    (now_isoformat w) (str w) hours.

End Endpoints.

(** ** Definitions used to state further properties *)

Module Props.
Import PyStr Re ModelLoader.

(** A regex none of whose characters is the line feed; its [.] never is. *)
Fixpoint nl_free (r : regex) : bool :=
  match r with
  | Void | Eps | Dot => true
  | Chr c => negb (PyStr.code c =? 10)%N
  | Cat r1 r2 | Alt r1 r2 => nl_free r1 && nl_free r2
  | Star r1 => nl_free r1
  end.

(** The labels whose text makes a Diagnosis critical. *)
Definition CRITICAL_LABELS : list string :=
  [ "Helm release installation or upgrade failed";
    "Chart installation failure";
    "Helm upgrade failure";
    "KOTS installation failure";
    "KOTS upgrade failure";
    "Container image pull failure";
    "Data format or syntax error" ].

(** A path component: no separator in it. *)
Definition no_sep (s : string) : bool :=
  forallb (fun c => if ascii_dec c "/"%char then false else true) (chars s).

(** The outcome of the freshness test of [get_pod_logs] on one file, when
    the modification time can be read. *)
Definition is_fresh (w : Endpoints.World) (limit : QArith_base.Q)
    (log_file : string) : bool :=
  match Endpoints.getmtime w log_file with
  | Ok mtime => QArith_base.Qle_bool limit mtime
  | Raise _ => false
  end.

Definition entry_of (w : Endpoints.World) (log_file : string)
  : option ApiServer.LogFileResponse :=
  match Endpoints.pod_entry w log_file with
  | Ok entry => Some entry
  | Raise _ => None
  end.

Definition complaint_of (w : Endpoints.World) (log_file : string)
  : option string :=
  match Endpoints.pod_entry w log_file with
  | Ok _ => None
  | Raise e =>
      Some ("Error reading log file " +:+ log_file +:+ ": "
            +:+ Endpoints.str w e)
  end.

(** The sources a consolidated analysis lists, given what each endpoint
    returned. *)
Definition sources_of (embedded_logs pod_logs : list ApiServer.LogFileResponse)
    (syslog : result ApiServer.LogFileResponse) : list string :=
  (match embedded_logs with [] => [] | _ :: _ => ["embedded-cluster"] end)
  ++ (match pod_logs with [] => [] | _ :: _ => ["pods"] end)
  ++ (match syslog with Ok _ => ["syslog"] | Raise _ => [] end).

End Props.

(** ** A file system, a clock and collectors to run the endpoints on *)

Module SampleWorld.
Import PyStr ModelLoader ApiServer Endpoints.

Definition q (n : Z) : QArith_base.Q := QArith_base.Qmake n 1.

Definition same (a b : string) : bool := bool_decide (a = b).

Definition app_log : string := "/logs/pods/default_web_1/app.log".
Definition db_log : string := "/logs/pods/default_db_2/db.log".
Definition old_log : string := "/logs/pods/default_old_3/old.log".

(** Three pod logs of the namespace default: one fresh and readable, one
    fresh and unreadable, one stale; one collector with output, one silent,
    one that fails. *)
Definition cluster : World :=
  {| classifier := Samples.steady "0.53";
     path_exists := fun p => same p "/logs/pods";
     glob := fun pattern =>
       if same pattern "/logs/pods/default_*/*.log"
       then [app_log; db_log; old_log] else [];
     getmtime := fun p => if same p old_log then Ok (q 10) else Ok (q 100);
     datetime := Z;
     cutoff_time := fun hours => Ok (50 - hours)%Z;
     timestamp_of := fun t => Ok (q t);
     fromtimestamp_isoformat := fun _ => Ok "2025-01-01T00:00:00";
     now_isoformat := "2025-01-01T12:00:00";
     open_read := fun p =>
       if same p app_log then Ok Samples.helm_text
       else if same p db_log then Raise (Exception "Permission denied")
       else Ok "install failed";
     journalctl := fun service _ =>
       if same service "k0scontroller.service" then Ok "connection refused"
       else if same service "k0sworker.service" then Ok EmptyString
       else Raise (Exception "journalctl: command not found");
     str := Samples.str_sample |}.

(** Nothing under /logs and silent collectors. *)
Definition bare : World :=
  {| classifier := Samples.steady "0.53";
     path_exists := fun _ => false;
     glob := fun _ => [];
     getmtime := fun _ => Raise (Exception "No such file or directory");
     datetime := Z;
     cutoff_time := fun hours => Ok (50 - hours)%Z;
     timestamp_of := fun t => Ok (q t);
     fromtimestamp_isoformat := fun _ => Ok "2025-01-01T00:00:00";
     now_isoformat := "2025-01-01T12:00:00";
     open_read := fun _ => Raise (Exception "No such file or directory");
     journalctl := fun _ _ => Ok EmptyString;
     str := Samples.str_sample |}.

(** An unreadable file in the embedded-cluster directory. *)
Definition locked : World :=
  {| classifier := Samples.steady "0.53";
     path_exists := fun p => same p "/logs/embedded-cluster";
     glob := fun pattern =>
       if same pattern "/logs/embedded-cluster/*.log"
       then ["/logs/embedded-cluster/install.log"] else [];
     getmtime := fun _ => Ok (q 100);
     datetime := Z;
     cutoff_time := fun hours => Ok (50 - hours)%Z;
     timestamp_of := fun t => Ok (q t);
     fromtimestamp_isoformat := fun _ => Ok "2025-01-01T00:00:00";
     now_isoformat := "2025-01-01T12:00:00";
     open_read := fun _ => Raise (Exception "Permission denied");
     journalctl := fun _ _ => Ok EmptyString;
     str := Samples.str_sample |}.

Definition app_entry : LogFileResponse :=
  match pod_entry cluster app_log with
  | Ok entry => entry
  | Raise _ => {| filename := EmptyString; analysis := Samples.diagnose EmptyString |}
  end.


End SampleWorld.

(** ** Lists and loops *)

Section Loops.
Context {A : Type}.

Lemma fold_left_pointwise {B : Type} (f g : B -> A -> B) (l : list A) (b : B) :
  (∀ b x, f b x = g b x) → fold_left f l b = fold_left g l b.
Proof.
  intros Hfg. revert b. induction l as [|x l IH]; intros b; simpl; [done|].
  by rewrite Hfg, IH.
Qed.

(** A loop that appends the elements passing a test is a filter. *)
Lemma fold_left_append_filter (p : A -> bool) (l acc : list A) :
  fold_left (fun acc x => if p x then acc ++ [x] else acc) l acc
  = acc ++ List.filter p l.
Proof.
  revert acc. induction l as [|x l IH]; intros acc; simpl.
  - by rewrite app_nil_r.
  - rewrite IH. destruct (p x); [by rewrite <- app_assoc | done].
Qed.

Lemma filter_sublist (p : A -> bool) (l : list A) :
  List.filter p l `sublist_of` l.
Proof.
  induction l as [|x l IH]; simpl; [constructor|].
  destruct (p x); by constructor.
Qed.

Lemma elem_of_filter_bool (p : A -> bool) (l : list A) (x : A) :
  x ∈ List.filter p l ↔ x ∈ l ∧ p x = true.
Proof.
  rewrite !list_elem_of_In. apply filter_In.
Qed.

Lemma filter_filter_implied (p q : A -> bool) (l : list A) :
  (∀ x, x ∈ l → p x = true → q x = true) →
  List.filter p l = List.filter p (List.filter q l).
Proof.
  induction l as [|x l IH]; intros H; simpl; [done|].
  assert (Hl : ∀ y, y ∈ l → p y = true → q y = true)
    by (intros y Hy; apply H; by right).
  destruct (p x) eqn:Hp.
  - rewrite (H x) by (done || left). simpl. rewrite Hp. f_equal. by apply IH.
  - destruct (q x); simpl; [rewrite Hp|]; by apply IH.
Qed.

Lemma find_filter_head (p : A -> bool) (l : list A) :
  List.find p l = head (List.filter p l).
Proof.
  induction l as [|x l IH]; simpl; [done|]. by destruct (p x).
Qed.
End Loops.

(** ** Substrings and the regex matcher, against their definitions *)

Section Matcher.
Import PyStr Re.

Lemma append_cons c s t : String c s +:+ t = String c (s +:+ t).
Proof. reflexivity. Qed.

Lemma append_nil_r s : s +:+ EmptyString = s.
Proof. induction s as [|c s IH]; [done|]. by rewrite append_cons, IH. Qed.

Lemma append_assoc s t u : (s +:+ t) +:+ u = s +:+ (t +:+ u).
Proof. induction s as [|c s IH]; [done|]. by rewrite !append_cons, IH. Qed.

Lemma append_eq_nil s t :
  s +:+ t = EmptyString → s = EmptyString ∧ t = EmptyString.
Proof. destruct s; [done | discriminate]. Qed.

Lemma matches_cat_inv r1 r2 s :
  matches (Cat r1 r2) s → ∃ s1 s2, s = s1 +:+ s2 ∧ matches r1 s1 ∧ matches r2 s2.
Proof. inversion 1; subst; eauto. Qed.

Lemma matches_alt_inv r1 r2 s :
  matches (Alt r1 r2) s → matches r1 s ∨ matches r2 s.
Proof. inversion 1; subst; eauto. Qed.

Lemma matches_void s : ¬ matches Void s.
Proof. inversion 1. Qed.

Lemma matches_eps_inv s : matches Eps s → s = EmptyString.
Proof. by inversion 1. Qed.

Lemma nullable_matches r : nullable r = true ↔ matches r EmptyString.
Proof.
  split.
  - induction r as [| |c| |r1 IH1 r2 IH2|r1 IH1 r2 IH2|r IH];
      cbn [nullable]; intros H; try discriminate.
    + constructor.
    + apply andb_true_iff in H as [H1 H2].
      apply (m_cat r1 r2 EmptyString EmptyString); auto.
    + apply orb_true_iff in H as [H|H]; [apply m_alt_l | apply m_alt_r]; auto.
    + constructor.
  - remember EmptyString as s eqn:Hs. induction 1 as
      [|c|c Hc|r1 r2 s1 s2 H1 IH1 H2 IH2|r1 r2 s H IH|r1 r2 s H IH|r
       |r s1 s2 H1 IH1 H2 IH2]; cbn [nullable]; try discriminate; try done.
    + apply append_eq_nil in Hs as [-> ->].
      by rewrite IH1, IH2.
    + by rewrite IH.
    + rewrite IH by done. apply orb_true_r.
Qed.

Lemma mkCat_matches r1 r2 s : matches (mkCat r1 r2) s ↔ matches (Cat r1 r2) s.
Proof.
  assert (Hv : ∀ r, is_void r = true → r = Void) by (by intros []).
  split.
  - unfold mkCat. intros H.
    destruct r1; try (by apply matches_void in H);
      try (destruct (is_void r2) eqn:Hr2; [by apply matches_void in H | exact H]).
    apply (m_cat Eps r2 EmptyString s); [constructor | exact H].
  - intros H. apply matches_cat_inv in H as (s1 & s2 & -> & H1 & H2).
    unfold mkCat.
    destruct r1; try (by apply matches_void in H1);
      try (destruct (is_void r2) eqn:Hr2;
           [apply Hv in Hr2; subst; by apply matches_void in H2
           | by constructor]).
    apply matches_eps_inv in H1 as ->. exact H2.
Qed.

Lemma mkAlt_matches r1 r2 s : matches (mkAlt r1 r2) s ↔ matches (Alt r1 r2) s.
Proof.
  assert (Hv : ∀ r, is_void r = true → r = Void) by (by intros []).
  split.
  - unfold mkAlt. intros H.
    destruct r1; try (by apply m_alt_r);
      (destruct (is_void r2) eqn:Hr2; [by apply m_alt_l | exact H]).
  - intros H. unfold mkAlt.
    destruct r1;
      try (destruct (is_void r2) eqn:Hr2;
           [apply Hv in Hr2; subst;
            apply matches_alt_inv in H as [H|H];
            [exact H | by apply matches_void in H]
           | exact H]).
    apply matches_alt_inv in H as [H|H]; [by apply matches_void in H | exact H].
Qed.

(** A word of [Star r] that starts with [c] starts with a word of [r] that
    starts with [c]. *)
Lemma matches_star_cons_inv r c s :
  matches (Star r) (String c s) →
  ∃ s1 s2, s = s1 +:+ s2 ∧ matches r (String c s1) ∧ matches (Star r) s2.
Proof.
  remember (Star r) as r' eqn:Hr. remember (String c s) as w eqn:Hw.
  induction 1 as
    [|a|a Ha|r1 r2 s1 s2 H1 IH1 H2 IH2|r1 r2 w H IH|r1 r2 w H IH|r0
     |r0 s1 s2 H1 IH1 H2 IH2]; try discriminate.
  injection Hr as ->. destruct s1 as [|a s1].
  - apply IH2; done.
  - rewrite append_cons in Hw. injection Hw as -> <-. eauto.
Qed.

Lemma deriv_matches c r : ∀ s, matches (deriv c r) s ↔ matches r (String c s).
Proof.
  induction r as [| |a| |r1 IH1 r2 IH2|r1 IH1 r2 IH2|r IH]; intros s;
    cbn [deriv].
  - split; inversion 1.
  - split; inversion 1.
  - destruct (ascii_dec a c) as [->|Hne]; split.
    + intros ->%matches_eps_inv. constructor.
    + inversion 1. constructor.
    + intros []%matches_void.
    + inversion 1. congruence.
  - destruct (dot_ok c) eqn:Hc; split.
    + intros ->%matches_eps_inv. by constructor.
    + inversion 1. constructor.
    + intros []%matches_void.
    + inversion 1. congruence.
  - assert (Hleft : ∀ s, matches (mkCat (deriv c r1) r2) s
                         → matches (Cat r1 r2) (String c s)).
    { intros w H. apply mkCat_matches, matches_cat_inv in H
        as (s1 & s2 & -> & H1 & H2).
      rewrite <- append_cons. constructor; [by apply IH1 | done]. }
    assert (Hsplit : ∀ s, matches (Cat r1 r2) (String c s) →
              matches (mkCat (deriv c r1) r2) s
              ∨ (nullable r1 = true ∧ matches (deriv c r2) s)).
    { intros w H. apply matches_cat_inv in H as (s1 & s2 & Hw & H1 & H2).
      destruct s1 as [|a s1].
      - right. change (String c w = s2) in Hw. subst s2.
        split; [by apply nullable_matches | by apply IH2].
      - left. rewrite append_cons in Hw. injection Hw as <- ->.
        apply mkCat_matches. constructor; [by apply IH1 | done]. }
    destruct (nullable r1) eqn:Hn; split.
    + intros H. apply mkAlt_matches, matches_alt_inv in H as [H|H].
      * by apply Hleft.
      * apply (m_cat r1 r2 EmptyString (String c s)).
        -- by apply nullable_matches.
        -- by apply IH2.
    + intros H. apply mkAlt_matches.
      destruct (Hsplit s H) as [H'|[_ H']]; [by apply m_alt_l | by apply m_alt_r].
    + apply Hleft.
    + intros H. destruct (Hsplit s H) as [H'|[? _]]; [done | discriminate].
  - split.
    + intros H. apply mkAlt_matches, matches_alt_inv in H as [H|H];
        [apply m_alt_l, IH1 | apply m_alt_r, IH2]; done.
    + intros H. apply mkAlt_matches.
      apply matches_alt_inv in H as [H|H];
        [apply m_alt_l, IH1 | apply m_alt_r, IH2]; done.
  - split.
    + intros H. apply mkCat_matches, matches_cat_inv in H
        as (s1 & s2 & -> & H1 & H2).
      rewrite <- append_cons. constructor; [by apply IH | done].
    + intros H. apply matches_star_cons_inv in H as (s1 & s2 & -> & H1 & H2).
      apply mkCat_matches. constructor; [by apply IH | done].
Qed.

(** [match_prefix] holds exactly when the text starts with a word of the
    pattern. *)
Lemma match_prefix_spec s : ∀ r,
  match_prefix r s = true ↔ ∃ s1 s2, s = s1 +:+ s2 ∧ matches r s1.
Proof.
  induction s as [|c s IH]; intros r; cbn [match_prefix].
  - rewrite orb_false_r, nullable_matches. split.
    + intros H. by exists EmptyString, EmptyString.
    + intros (s1 & s2 & Hs & H). symmetry in Hs.
      by apply append_eq_nil in Hs as [-> _].
  - rewrite orb_true_iff, nullable_matches, IH. split.
    + intros [H|(s1 & s2 & -> & H)].
      * by exists EmptyString, (String c s).
      * exists (String c s1), s2. split; [done | by apply deriv_matches].
    + intros (s1 & s2 & Hs & H). destruct s1 as [|a s1].
      * by left.
      * right. rewrite append_cons in Hs. injection Hs as <- ->.
        exists s1, s2. split; [done | by apply deriv_matches].
Qed.

(** [search] holds exactly when some substring of the text is a word of the
    pattern. *)
Lemma search_spec r s :
  search r s = true ↔ ∃ s0 s1 s2, s = s0 +:+ s1 +:+ s2 ∧ matches r s1.
Proof.
  induction s as [|c s IH]; cbn [search].
  - rewrite orb_false_r, match_prefix_spec. split.
    + intros (s1 & s2 & Hs & H). by exists EmptyString, s1, s2.
    + intros (s0 & s1 & s2 & Hs & H). symmetry in Hs.
      apply append_eq_nil in Hs as [-> Hs]. exists s1, s2.
      split; [by rewrite Hs | exact H].
  - rewrite orb_true_iff, match_prefix_spec, IH. split.
    + intros [(s1 & s2 & Hs & H)|(s0 & s1 & s2 & -> & H)].
      * by exists EmptyString, s1, s2.
      * by exists (String c s0), s1, s2.
    + intros (s0 & s1 & s2 & Hs & H). destruct s0 as [|a s0].
      * left. exists s1, s2. split; [exact Hs | exact H].
      * right. rewrite append_cons in Hs. injection Hs as <- ->. eauto.
Qed.

(** [needle in hay] holds exactly when [hay] has [needle] as a substring. *)
Lemma startswith_spec p : ∀ s,
  startswith p s = true ↔ ∃ t, s = p +:+ t.
Proof.
  induction p as [|a p IH]; intros s; cbn [startswith].
  - split; [by exists s | done].
  - destruct s as [|b s].
    + split; [discriminate | by intros (t & Ht)].
    + destruct (ascii_dec a b) as [->|Hne].
      * rewrite IH. split; intros (t & Ht); exists t.
        -- by rewrite append_cons, Ht.
        -- rewrite append_cons in Ht. by injection Ht.
      * split; [discriminate|]. intros (t & Ht).
        rewrite append_cons in Ht. injection Ht as ? _. congruence.
Qed.

Lemma contains_spec needle hay :
  contains needle hay = true ↔ ∃ s0 s1, hay = s0 +:+ needle +:+ s1.
Proof.
  induction hay as [|c hay IH]; cbn [contains].
  - rewrite orb_false_r, startswith_spec. split.
    + intros (t & Ht). by exists EmptyString, t.
    + intros (s0 & s1 & Hs). symmetry in Hs.
      apply append_eq_nil in Hs as [-> Hs]. by exists s1.
  - rewrite orb_true_iff, startswith_spec, IH. split.
    + intros [(t & Ht)|(s0 & s1 & ->)].
      * by exists EmptyString, t.
      * by exists (String c s0), s1.
    + intros (s0 & s1 & Hs). destruct s0 as [|a s0].
      * left. by exists s1.
      * right. rewrite append_cons in Hs. injection Hs as <- ->. eauto.
Qed.
End Matcher.

(** ** The pattern matcher *)

Section PatternMatcher.
Import PyStr Re ModelLoader.

Lemma identify_patterns_filter text :
  identify_patterns text = Spec.matched text.
Proof.
  unfold identify_patterns, Spec.matched.
  rewrite <- (app_nil_l (List.filter _ ERROR_PATTERNS)).
  rewrite <- fold_left_append_filter.
  apply fold_left_pointwise. intros acc [pattern cause]. done.
Qed.

(** No signature is listed twice in the dict literal, so the association
    list is the dict. *)
Lemma ERROR_PATTERNS_keys_NoDup : NoDup ERROR_PATTERNS.*1.
Proof. apply (bool_decide_unpack _). by vm_compute. Qed.

Lemma ERROR_PATTERNS_NoDup : NoDup ERROR_PATTERNS.
Proof. eapply NoDup_fmap_1, ERROR_PATTERNS_keys_NoDup. Qed.

(** Every signature of the catalog is in the fragment [compile] reads. *)
Lemma ERROR_PATTERNS_compile :
  Forall (fun e => is_Some (compile e.1)) ERROR_PATTERNS.
Proof. repeat constructor; by eexists. Qed.
End PatternMatcher.

Section PatternMatcherClaims.
Import PyStr Re ModelLoader.

(** C3: for every input text, [identify_patterns] lists its
    (signature, root cause) pairs in catalog order, as a subsequence of
    [ERROR_PATTERNS], whatever the positions of the matches in the text; no
    entry and no signature occurs twice in the result; and an entry is
    listed exactly when its signature is found in the lowercased text. *)
Theorem identify_patterns_catalog_order (text : string) :
  identify_patterns text `sublist_of` ERROR_PATTERNS
  ∧ NoDup (identify_patterns text)
  ∧ NoDup (identify_patterns text).*1
  ∧ ∀ e, e ∈ identify_patterns text
         ↔ e ∈ ERROR_PATTERNS ∧ re_search e.1 (lower text) = true.
Proof.
  rewrite identify_patterns_filter. unfold Spec.matched.
  pose proof (filter_sublist (fun e : string * string => re_search e.1 (lower text))
                ERROR_PATTERNS) as Hsub.
  split_and!.
  - exact Hsub.
  - eapply sublist_NoDup; [apply ERROR_PATTERNS_NoDup | exact Hsub].
  - eapply sublist_NoDup; [apply ERROR_PATTERNS_keys_NoDup |].
    by apply fmap_sublist.
  - intros e.
    apply (elem_of_filter_bool (fun e : string * string => re_search e.1 (lower text))).
Qed.

(** The later signature of the text comes first when the catalog lists it
    first, and a signature found twice is listed once. *)
Example identify_patterns_not_text_order :
  identify_patterns "Timeout, then connection refused, then a timeout again"
  = [ ("connection.*refused", "Network connectivity issue");
      ("timeout", "Resource exhaustion or network latency") ].
Proof. by vm_compute. Qed.
End PatternMatcherClaims.

(** ** The remediation advisor *)

Section RemediationAdvisor.
Import PyStr ModelLoader.

(** C6: for every root-cause label, [get_next_steps] returns exactly four
    strings; the list is the one attached to the first keyword, in the order
    helm, kots, kubernetes, network, permission, resource, that occurs in
    the lowercased label, and the generic list when none occurs; the result
    is always one of the seven fixed lists, never a mix of them. *)
Theorem get_next_steps_first_keyword (root_cause : string) :
  length (get_next_steps root_cause) = 4%nat
  ∧ get_next_steps root_cause = Spec.steps_for root_cause
  ∧ get_next_steps root_cause
      ∈ [ helm_steps; kots_steps; kubernetes_steps; network_steps;
          permission_steps; resource_steps; generic_steps ].
Proof.
  unfold get_next_steps, Spec.steps_for, Spec.STEP_TABLE, Spec.label_mentions.
  cbn [List.find fst snd].
  repeat match goal with
         | |- context [if contains ?k ?s then _ else _] =>
             destruct (contains k s)
         end;
    (split_and!; [reflexivity | reflexivity | repeat constructor]).
Qed.

(** The label that resolves an unmatched log gets the generic list. *)
Example get_next_steps_unknown_issue :
  get_next_steps "Unknown issue" = generic_steps.
Proof. by vm_compute. Qed.

(** A label naming two families gets the steps of the first one only. *)
Example get_next_steps_two_keywords :
  get_next_steps "Network resource issue" = network_steps.
Proof. by vm_compute. Qed.
End RemediationAdvisor.

(** ** The single-source analyzer *)

Section Analyzer.
Import PyStr Re ModelLoader.

(** The root cause the code computes is the one the specification words. *)
Lemma root_cause_resolution (text : string) :
  match identify_patterns text with
  | [] => "Unknown issue"
  | first :: _ =>
      match List.filter mentions_helm_or_kots (identify_patterns text) with
      | m :: _ => m.2
      | [] => first.2
      end
  end = Spec.resolved_root_cause text.
Proof.
  rewrite identify_patterns_filter. unfold Spec.resolved_root_cause.
  rewrite find_filter_head.
  assert (Heq : ∀ l : list (string * string),
             List.filter
               (fun e => Spec.label_mentions "helm" e.2
                         || Spec.label_mentions "kots" e.2) l
             = List.filter mentions_helm_or_kots l).
  { intros l. apply filter_ext. intros [p c].
    unfold mentions_helm_or_kots, contains_any, Spec.label_mentions. simpl.
    by rewrite orb_false_r. }
  rewrite Heq.
  destruct (Spec.matched text) as [|first rest] eqn:Hm; [done|].
  by destruct (List.filter mentions_helm_or_kots (first :: rest)).
Qed.

(** When inference returns, so does [analyze_log], with these fields. *)
Lemma analyze_log_returns clf text inputs outputs :
  tokenizer clf (Spec.context_text_of text) = Ok inputs →
  model clf inputs = Ok outputs →
  analyze_log clf text
  = Ok {| root_cause := Spec.resolved_root_cause text;
          confidence := confidence_of clf outputs;
          next_steps := get_next_steps (Spec.resolved_root_cause text);
          context := Spec.context_text_of text;
          timestamp := None |}.
Proof.
  intros Htok Hmodel. unfold analyze_log. cbv zeta.
  fold (Spec.context_text_of text). rewrite Htok. cbn [mbind result_bind].
  rewrite Hmodel. cbn [mbind result_bind].
  rewrite root_cause_resolution. reflexivity.
Qed.

(** A result of [analyze_log] comes from an inference that returned. *)
Lemma analyze_log_inv clf text d :
  analyze_log clf text = Ok d →
  ∃ inputs outputs,
    tokenizer clf (Spec.context_text_of text) = Ok inputs
    ∧ model clf inputs = Ok outputs
    ∧ d = {| root_cause := Spec.resolved_root_cause text;
             confidence := confidence_of clf outputs;
             next_steps := get_next_steps (Spec.resolved_root_cause text);
             context := Spec.context_text_of text;
             timestamp := None |}.
Proof.
  intros H.
  destruct (tokenizer clf (Spec.context_text_of text)) as [inputs|e] eqn:Htok.
  - destruct (model clf inputs) as [outputs|e] eqn:Hmodel.
    + rewrite (analyze_log_returns _ _ _ _ Htok Hmodel) in H.
      exists inputs, outputs. by inversion H.
    + unfold analyze_log in H. fold (Spec.context_text_of text) in H.
      rewrite Htok in H. cbn [mbind result_bind] in H.
      rewrite Hmodel in H. discriminate H.
  - unfold analyze_log in H. fold (Spec.context_text_of text) in H.
    rewrite Htok in H. discriminate H.
Qed.

(** C1: for every input text on which inference returns, [analyze_log]
    returns a Diagnosis whose root cause is the label of the first matched
    catalog entry whose label contains helm or kots (case-insensitively)
    when there is one, else the label of the first matched entry in catalog
    order, else the string "Unknown issue". *)
Theorem analyze_log_root_cause clf text inputs outputs :
  tokenizer clf (Spec.context_text_of text) = Ok inputs →
  model clf inputs = Ok outputs →
  ∃ d, analyze_log clf text = Ok d
       ∧ root_cause d = Spec.resolved_root_cause text.
Proof.
  intros Htok Hmodel. eexists. split.
  - by apply (analyze_log_returns _ _ _ _ Htok Hmodel).
  - done.
Qed.

Lemma analyze_log_root_cause_witness :
  ∃ d, analyze_log (Samples.steady "0.53") Samples.helm_text = Ok d
       ∧ root_cause d = Spec.resolved_root_cause Samples.helm_text.
Proof.
  apply (analyze_log_root_cause (Samples.steady "0.53") Samples.helm_text
           (Spec.context_text_of Samples.helm_text) tt); reflexivity.
Defined.

(** The override does not depend on catalog position: the helm label wins
    over an entry listed before it. *)
Example helm_label_wins_over_earlier_entry :
  identify_patterns "chart requires kubernetes version 1.24; helm upgrade has failed"
  = [ ("chart.*requires.*kubernetes.*version", "Kubernetes version compatibility issue");
      ("helm.*upgrade.*failed", "Helm upgrade failure") ]
  ∧ Spec.resolved_root_cause
      "chart requires kubernetes version 1.24; helm upgrade has failed"
    = "Helm upgrade failure".
Proof. by vm_compute. Qed.

Example scenario_helm_release :
  Spec.resolved_root_cause Samples.helm_text
  = "Helm release installation or upgrade failed".
Proof. by vm_compute. Qed.

Example scenario_no_match :
  Spec.resolved_root_cause Samples.info_text = "Unknown issue".
Proof. by vm_compute. Qed.
End Analyzer.

Section AnalyzerClaims.
Import PyStr Re ModelLoader.

(** C2, as the code has it: for every input text, when the inference step
    of [analyze_log] raises (in the tokenizer or in the forward pass),
    [analyze_log] returns no Diagnosis; it raises that same exception to
    its caller. *)
Theorem analyze_log_inference_failure_propagates clf text e :
  Spec.inference_raises clf text e →
  analyze_log clf text = Raise e.
Proof.
  intros [Htok | (inputs & Htok & Hmodel)];
    unfold analyze_log; cbv zeta; fold (Spec.context_text_of text);
    rewrite Htok; cbn [mbind result_bind]; [reflexivity|].
  rewrite Hmodel. reflexivity.
Qed.

Lemma analyze_log_inference_failure_propagates_witness :
  analyze_log Samples.broken Samples.info_text
  = Raise (Exception "CUDA out of memory").
Proof.
  apply (analyze_log_inference_failure_propagates Samples.broken
           Samples.info_text (Exception "CUDA out of memory")).
  right. exists (Spec.context_text_of Samples.info_text).
  split; reflexivity.
Defined.

(** C2, as stated, fails: with a forward pass that raises, [analyze_log]
    returns no Diagnosis at all, so none with confidence "0.00". *)
Lemma analyze_log_no_confidence_sentinel :
  Spec.inference_raises Samples.broken Samples.info_text
    (Exception "CUDA out of memory")
  ∧ ¬ ∃ d, analyze_log Samples.broken Samples.info_text = Ok d
           ∧ confidence d = "0.00".
Proof.
  split.
  - right. exists (Spec.context_text_of Samples.info_text).
    split; reflexivity.
  - intros (d & Hd & _). vm_compute in Hd. discriminate Hd.
Qed.

(** C9: for every input text, two runs of [analyze_log] that differ in the
    classifier (hence in the logits) return the same root cause, the same
    next steps and the same context; each of the three is a function of
    the text alone, and only the confidence comes from the model. *)
Theorem analyze_log_model_independent clf1 clf2 text d1 d2 :
  analyze_log clf1 text = Ok d1 →
  analyze_log clf2 text = Ok d2 →
  root_cause d1 = root_cause d2
  ∧ next_steps d1 = next_steps d2
  ∧ context d1 = context d2
  ∧ root_cause d1 = Spec.resolved_root_cause text
  ∧ next_steps d1 = get_next_steps (Spec.resolved_root_cause text)
  ∧ context d1 = Spec.context_text_of text.
Proof.
  intros H1 H2.
  apply analyze_log_inv in H1 as (i1 & o1 & _ & _ & ->).
  apply analyze_log_inv in H2 as (i2 & o2 & _ & _ & ->).
  cbn [root_cause next_steps context]. by split_and!.
Qed.

Lemma analyze_log_model_independent_witness :
  confidence (Samples.diagnose_with "0.53" Samples.helm_text)
  ≠ confidence (Samples.diagnose_with "0.99" Samples.helm_text)
  ∧ root_cause (Samples.diagnose_with "0.53" Samples.helm_text)
    = root_cause (Samples.diagnose_with "0.99" Samples.helm_text)
  ∧ next_steps (Samples.diagnose_with "0.53" Samples.helm_text)
    = next_steps (Samples.diagnose_with "0.99" Samples.helm_text)
  ∧ context (Samples.diagnose_with "0.53" Samples.helm_text)
    = context (Samples.diagnose_with "0.99" Samples.helm_text).
Proof.
  split; [by vm_compute|].
  pose proof (analyze_log_model_independent
                (Samples.steady "0.53") (Samples.steady "0.99")
                Samples.helm_text
                (Samples.diagnose_with "0.53" Samples.helm_text)
                (Samples.diagnose_with "0.99" Samples.helm_text)) as H.
  destruct H as (Hr & Hn & Hc & _); [by vm_compute | by vm_compute |].
  by split_and!.
Defined.
End AnalyzerClaims.

Section DomainPriority.
Import PyStr Re ModelLoader.

Lemma helm_group_unnamed_entries :
  Spec.helm_group_unnamed
  = [ ("chart.*requires.*kubernetes.*version", "Kubernetes version compatibility issue");
      ("failed.*to.*install.*chart", "Chart installation failure");
      ("chart.*not.*found", "Chart not found in repository") ].
Proof. by vm_compute. Qed.

(** When every match is one of the three Helm-group entries whose label
    names neither helm nor kots, the matches are those three, filtered. *)
Lemma matched_within_helm_group_unnamed text :
  Forall (fun m => m ∈ Spec.helm_group_unnamed) (identify_patterns text) →
  Spec.matched text
  = List.filter (fun e => re_search e.1 (lower text)) Spec.helm_group_unnamed.
Proof.
  rewrite identify_patterns_filter. intros Hall. unfold Spec.matched at 1.
  rewrite (filter_filter_implied _
             (fun m => bool_decide (m ∈ Spec.helm_group_unnamed))).
  - f_equal.
  - intros m Hm Hp. apply bool_decide_eq_true_2.
    rewrite Forall_forall in Hall. apply Hall.
    apply (elem_of_filter_bool (fun e : string * string => re_search e.1 (lower text))).
    by split.
Qed.

(** C10, as the code has it: for every input text whose only catalog
    matches are Helm-group entries with labels containing neither helm nor
    kots, [analyze_log] applies no domain-priority override (the root cause
    is the label of the first match in catalog order) and the next steps
    are never the Helm-specific ones: they are the cluster-health steps
    when the signature "chart.*requires.*kubernetes.*version" is among the
    matches, its label containing "kubernetes", and the generic fallback
    otherwise. *)
Theorem helm_group_unnamed_no_override clf text d :
  Forall (fun m => m ∈ Spec.helm_group_unnamed) (identify_patterns text) →
  analyze_log clf text = Ok d →
  root_cause d = match identify_patterns text with
                 | m :: _ => m.2
                 | [] => "Unknown issue"
                 end
  ∧ next_steps d ≠ helm_steps
  ∧ next_steps d
    = if re_search "chart.*requires.*kubernetes.*version" (lower text)
      then kubernetes_steps else generic_steps.
Proof.
  intros Hall Hd.
  apply analyze_log_inv in Hd as (inputs & outputs & _ & _ & ->).
  cbn [root_cause next_steps].
  unfold Spec.resolved_root_cause.
  rewrite identify_patterns_filter.
  rewrite (matched_within_helm_group_unnamed _ Hall).
  rewrite helm_group_unnamed_entries. cbn [List.filter fst].
  destruct (re_search "chart.*requires.*kubernetes.*version" (lower text));
    destruct (re_search "failed.*to.*install.*chart" (lower text));
    destruct (re_search "chart.*not.*found" (lower text));
    vm_compute; (split_and!; [reflexivity | discriminate | reflexivity]).
Qed.

Lemma helm_group_unnamed_no_override_witness :
  root_cause (Samples.diagnose "chart notfound") = "Chart not found in repository"
  ∧ next_steps (Samples.diagnose "chart notfound") ≠ helm_steps
  ∧ next_steps (Samples.diagnose "chart notfound") = generic_steps.
Proof.
  apply (helm_group_unnamed_no_override (Samples.steady "0.53")
           "chart notfound" (Samples.diagnose "chart notfound")).
  - apply (bool_decide_unpack _). by vm_compute.
  - by vm_compute.
Defined.

(** C10, as stated, fails: the only match of this text is a Helm-group
    entry whose label names neither helm nor kots, yet the next steps are
    the cluster-health ones, not the generic fallback. *)
Lemma kubernetes_label_not_generic :
  identify_patterns Samples.k8s_version_text
  = [ ("chart.*requires.*kubernetes.*version", "Kubernetes version compatibility issue") ]
  ∧ Forall (fun m => m ∈ Spec.helm_group_unnamed)
      (identify_patterns Samples.k8s_version_text)
  ∧ ∃ d, analyze_log (Samples.steady "0.53") Samples.k8s_version_text = Ok d
         ∧ next_steps d = kubernetes_steps
         ∧ next_steps d ≠ generic_steps.
Proof.
  split_and!.
  - by vm_compute.
  - apply (bool_decide_unpack _). by vm_compute.
  - eexists. split; [by vm_compute|]. split; [by vm_compute|].
    vm_compute. discriminate.
Qed.
End DomainPriority.

(** ** The context extractor *)

Section Strings.
Import PyStr Re.

Lemma whitespace_only_app s t :
  Spec.whitespace_only (s +:+ t)
  = Spec.whitespace_only s && Spec.whitespace_only t.
Proof.
  unfold Spec.whitespace_only.
  induction s as [|c s IH]; [done|].
  change (String c s +:+ t) with (String c (s +:+ t)).
  cbn [chars forallb]. by rewrite IH, andb_assoc.
Qed.

Lemma is_nl_isspace c : is_nl c = true → isspace c = true.
Proof.
  unfold is_nl, isspace. intros H.
  apply orb_true_iff in H as [H|H]; apply N.eqb_eq in H; by rewrite H.
Qed.

Lemma lstrip_whitespace_only s :
  Spec.whitespace_only s = true → lstrip s = EmptyString.
Proof.
  unfold Spec.whitespace_only.
  induction s as [|c s IH]; cbn [chars forallb lstrip]; [done|].
  intros H. apply andb_true_iff in H as [Hc Hs]. rewrite Hc. by apply IH.
Qed.

Lemma lstrip_starts_with_text s :
  Spec.whitespace_only s = false →
  ∃ c s', lstrip s = String c s' ∧ isspace c = false.
Proof.
  unfold Spec.whitespace_only.
  induction s as [|c s IH]; cbn [chars forallb lstrip]; [done|].
  destruct (isspace c) eqn:Hc; cbn [andb]; [exact IH|].
  intros _. by exists c, s.
Qed.

(** A line strips to the empty string exactly when it holds whitespace
    only. *)
Lemma strip_is_empty s : is_empty (strip s) = Spec.whitespace_only s.
Proof.
  unfold strip. destruct (Spec.whitespace_only s) eqn:Hs.
  - by rewrite lstrip_whitespace_only.
  - destruct (lstrip_starts_with_text s Hs) as (c & s' & -> & Hc).
    cbn [rstrip]. by rewrite Hc.
Qed.

(** The fields of a text are whitespace-only exactly when the text is. *)
Lemma split_lines_from_whitespace_only s :
  ∀ (in_run : bool) (cur : string),
    (in_run = true → cur = EmptyString) →
    forallb Spec.whitespace_only (split_lines_from cur in_run s)
    = Spec.whitespace_only cur && Spec.whitespace_only s.
Proof.
  induction s as [|c s IH]; intros in_run cur Hrun; cbn [split_lines_from].
  - cbn [forallb]. unfold Spec.whitespace_only at 3. cbn [chars forallb].
    reflexivity.
  - assert (Hcs : Spec.whitespace_only (String c s)
                  = isspace c && Spec.whitespace_only s) by reflexivity.
    rewrite Hcs. destruct (is_nl c) eqn:Hnl.
    + rewrite (is_nl_isspace _ Hnl). cbn [andb].
      destruct in_run.
      * rewrite (Hrun eq_refl). by rewrite IH.
      * cbn [forallb]. by rewrite IH.
    + rewrite IH by done. rewrite whitespace_only_app.
      unfold Spec.whitespace_only at 2. cbn [chars forallb].
      by rewrite andb_true_r, andb_assoc.
Qed.

Lemma split_lines_whitespace_only text :
  forallb Spec.whitespace_only (split_lines text) = Spec.whitespace_only text.
Proof.
  unfold split_lines. by rewrite split_lines_from_whitespace_only.
Qed.
End Strings.

Section ContextExtractor.
Import PyStr Re ModelLoader.

(** The list comprehension of the source computes the cleaned line
    sequence of the specification. *)
Lemma clean_lines_cleaned text :
  clean_lines text = Spec.cleaned_line_sequence text.
Proof.
  unfold clean_lines, Spec.cleaned_line_sequence. f_equal.
  apply filter_ext. intros l. by rewrite strip_is_empty.
Qed.

Lemma filter_nil_forallb {A} (p : A → bool) (l : list A) :
  List.filter (fun x => negb (p x)) l = [] ↔ forallb p l = true.
Proof.
  induction l as [|x l IH]; cbn [List.filter forallb]; [done|].
  destruct (p x); cbn [negb andb]; [exact IH | split; discriminate].
Qed.

Lemma clean_lines_nil text :
  clean_lines text = [] ↔ Spec.whitespace_only text = true.
Proof.
  rewrite clean_lines_cleaned. unfold Spec.cleaned_line_sequence.
  rewrite <- split_lines_whitespace_only, <- filter_nil_forallb.
  split; [apply map_eq_nil | by intros ->].
Qed.

(** The loop adds nothing while no line names a fault. *)
Lemma scan_lines_no_error lines rest :
  existsb is_error_line rest = false →
  ∀ i error_lines, scan_lines lines i rest error_lines = error_lines.
Proof.
  induction rest as [|line rest IH]; cbn [existsb scan_lines]; [done|].
  intros H i error_lines. apply orb_false_iff in H as [Hline Hrest].
  rewrite Hline. by apply IH.
Qed.

(** C4: for every input text none of whose cleaned lines contains one of
    the keywords error, exception, failed, fatal, critical, warning as a
    case-insensitive substring, [extract_error_context] returns the full
    cleaned line sequence (the text split on runs of line feeds and
    carriage returns, whitespace-only lines dropped, the others stripped,
    order kept), unchanged. *)
Theorem extract_error_context_no_fault text :
  existsb is_error_line (Spec.cleaned_line_sequence text) = false →
  extract_error_context text = Spec.cleaned_line_sequence text.
Proof.
  rewrite <- clean_lines_cleaned. intros H. unfold extract_error_context.
  cbv zeta. by rewrite (scan_lines_no_error _ _ H).
Qed.

Lemma extract_error_context_no_fault_witness :
  extract_error_context Samples.two_line_text
  = ["INFO: pod myapp-123 started successfully"; "ready"].
Proof.
  apply (extract_error_context_no_fault Samples.two_line_text).
  vm_compute. reflexivity.
Defined.

(** C5, as the code has it: for every input text, [extract_error_context]
    returns the empty sequence exactly when every character of the text is
    whitespace (the empty text included); a text with at least one
    character that is not whitespace yields a non-empty sequence. *)
Theorem extract_error_context_nil text :
  extract_error_context text = [] ↔ Spec.whitespace_only text = true.
Proof.
  rewrite <- clean_lines_nil. unfold extract_error_context. cbv zeta.
  destruct (scan_lines (clean_lines text) 0 (clean_lines text) [])
    as [|l ls] eqn:Hscan.
  - done.
  - split; [discriminate|]. intros Hnil. rewrite Hnil in Hscan.
    cbn [scan_lines] in Hscan. discriminate Hscan.
Qed.

(** C5, as stated, fails: a text of one space has a character, and its
    extracted context is empty. *)
Lemma extract_error_context_blank_text :
  " " ≠ EmptyString ∧ extract_error_context " " = [].
Proof. split; [discriminate | by vm_compute]. Qed.

(** A run of separators at either end leaves an empty field, which the
    cleaning drops; CR LF is one separator. *)
Example split_lines_edges :
  split_lines (Samples.lines_text [""; "a"; ""; "b"; ""]) = [""; "a"; "b"; ""]
  ∧ split_lines EmptyString = [EmptyString]
  ∧ clean_lines (Samples.lines_text [""; " a "; "  "; "b"; ""]) = ["a"; "b"].
Proof. by vm_compute. Qed.

(** Overlapping windows are kept as they come: lines near two faults are
    repeated. *)
Example extract_error_context_overlap :
  extract_error_context Samples.eight_line_text
  = ["a"; "b"; "an Error"; "c"; "FAILED x";
     "an Error"; "c"; "FAILED x"; "d"; "e"].
Proof. by vm_compute. Qed.
End ContextExtractor.

(** ** The multi-source aggregator *)

Section Aggregator.
Import PyStr ModelLoader ApiServer Aggregate.

Lemma filter_map_pair {A} (src : string) (f : string * A → bool) (l : list A) :
  List.filter f (map (pair src) l)
  = map (pair src) (List.filter (fun x => f (src, x)) l).
Proof.
  induction l as [|x l IH]; cbn [map List.filter]; [done|].
  destruct (f (src, x)); cbn [map]; by rewrite IH.
Qed.

(** One loop of the handler: criticals and warnings grow by the logs of
    the source, each on its side, in order. *)
Lemma classify_loop src logs :
  ∀ st,
    l_critical (fold_left (classify src) logs st)
    = l_critical st ++ map (critical_issue src) (List.filter is_critical logs)
    ∧ l_warnings (fold_left (classify src) logs st)
      = l_warnings st
        ++ map (warning src) (List.filter (fun l => negb (is_critical l)) logs)
    ∧ l_sources (fold_left (classify src) logs st) = l_sources st.
Proof.
  induction logs as [|log logs IH]; intros st; cbn [fold_left List.filter].
  - by rewrite !app_nil_r.
  - destruct (IH (classify src st log)) as (-> & -> & ->).
    unfold classify. destruct (is_critical log);
      cbn [negb map l_critical l_warnings l_sources];
      by rewrite <- ?app_assoc.
Qed.

Lemma analyze_source_lists src logs st :
  l_critical (analyze_source src logs st)
  = l_critical st ++ map (critical_issue src) (List.filter is_critical logs)
  ∧ l_warnings (analyze_source src logs st)
    = l_warnings st
      ++ map (warning src) (List.filter (fun l => negb (is_critical l)) logs).
Proof.
  destruct logs as [|log logs].
  - cbn [analyze_source List.filter map]. by rewrite !app_nil_r.
  - unfold analyze_source.
    destruct (classify_loop src (log :: logs) (add_source src st))
      as (-> & -> & _). done.
Qed.

Section Run.
Variable analyze_embedded_cluster_logs : Z → result (list LogFileResponse).
Variable analyze_pod_logs : Z → result (list LogFileResponse).
Variable analyze_syslog : Z → result LogFileResponse.
Variable now_isoformat : string.
Variable str : exn → string.


(** A report is returned only when the first two endpoints returned; its
    two lists are the visited Diagnoses, split by [is_critical]. *)
Lemma analyze_all_logs_lists hours report :
  analyze_all_logs analyze_embedded_cluster_logs analyze_pod_logs
    analyze_syslog now_isoformat str hours = Ok report →
  ∃ embedded_logs pod_logs,
    analyze_embedded_cluster_logs hours = Ok embedded_logs
    ∧ analyze_pod_logs hours = Ok pod_logs
    ∧ critical_issues report
      = map (fun sl => critical_issue sl.1 sl.2)
          (List.filter critical_log
             (visited embedded_logs pod_logs (analyze_syslog hours)))
    ∧ warnings report
      = map (fun sl => warning sl.1 sl.2)
          (List.filter (fun sl => negb (critical_log sl))
             (visited embedded_logs pod_logs (analyze_syslog hours))).
Proof.
  unfold analyze_all_logs, collect.
  destruct (analyze_embedded_cluster_logs hours) as [embedded_logs|e];
    cbn [mbind result_bind]; [|discriminate].
  destruct (analyze_pod_logs hours) as [pod_logs|e];
    cbn [mbind result_bind]; [|discriminate].
  set (st0 := {| l_critical := []; l_warnings := []; l_sources := [] |}).
  set (st1 := analyze_source "embedded-cluster" embedded_logs st0).
  set (st2 := analyze_source "pods" pod_logs st1).
  destruct (analyze_source_lists "embedded-cluster" embedded_logs st0)
    as [Hc1 Hw1].
  destruct (analyze_source_lists "pods" pod_logs st1) as [Hc2 Hw2].
  fold st1 in Hc1, Hw1, Hc2, Hw2. fold st2 in Hc2, Hw2.
  cbn [l_critical l_warnings app] in Hc1, Hw1.
  rewrite Hc1 in Hc2. rewrite Hw1 in Hw2.
  intros Hrun. exists embedded_logs, pod_logs.
  split; [done|]. split; [done|].
  unfold visited. rewrite !List.filter_app, !filter_map_pair, !map_app, !map_map.
  cbn [fst snd]. unfold critical_log. cbn [snd].
  fold is_critical.
  change (fun x : LogFileResponse => critical_text (root_cause (analysis x)))
    with is_critical.
  change (fun x : LogFileResponse =>
            negb (critical_text (root_cause (analysis x))))
    with (fun x => negb (is_critical x)).
  subst st0. cbn [l_critical l_warnings app] in Hc2, Hw2.
  destruct (analyze_syslog hours) as [syslog|[msg|code detail]].
  - injection Hrun as <-. cbn [critical_issues warnings].
    unfold classify.
    cbn [l_critical l_warnings add_source List.filter fst snd].
    change (critical_text (root_cause (analysis syslog)))
      with (is_critical syslog).
    destruct (is_critical syslog);
      cbn [negb map l_critical l_warnings fst snd];
      rewrite Hc2, Hw2, ?app_nil_r, <- ?app_assoc; done.
  - discriminate Hrun.
  - injection Hrun as <-. cbn [critical_issues warnings List.filter map].
    by rewrite Hc2, Hw2, !app_nil_r.
Qed.

(** C7: for every report the consolidated analysis returns, the
    Diagnoses it went through (embedded-cluster logs, then pod logs,
    then the syslog when it is available) are split by root cause: a
    Diagnosis is an entry of [critical_issues] exactly when its root
    cause contains "error" or "fail" as a case-insensitive substring, and
    an entry of [warnings] otherwise; a Diagnosis whose root cause is
    "Unknown issue" is always a warning and never critical. *)
Theorem classification_by_root_cause hours report :
  analyze_all_logs analyze_embedded_cluster_logs analyze_pod_logs
    analyze_syslog now_isoformat str hours = Ok report →
  ∃ embedded_logs pod_logs,
    analyze_embedded_cluster_logs hours = Ok embedded_logs
    ∧ analyze_pod_logs hours = Ok pod_logs
    ∧ critical_issues report
      = map (fun sl => critical_issue sl.1 sl.2)
          (List.filter critical_log
             (visited embedded_logs pod_logs (analyze_syslog hours)))
    ∧ warnings report
      = map (fun sl => warning sl.1 sl.2)
          (List.filter (fun sl => negb (critical_log sl))
             (visited embedded_logs pod_logs (analyze_syslog hours)))
    ∧ (∀ i, i ∈ critical_issues report → critical_text (issue i) = true)
    ∧ (∀ w, w ∈ warnings report → critical_text (issue w) = false)
    ∧ (∀ src log,
         (src, log) ∈ visited embedded_logs pod_logs (analyze_syslog hours) →
         root_cause (analysis log) = "Unknown issue" →
         warning src log ∈ warnings report)
    ∧ (∀ i, i ∈ critical_issues report → issue i ≠ "Unknown issue").
Proof.
  intros Hrun.
  destruct (analyze_all_logs_lists hours report Hrun)
    as (embedded_logs & pod_logs & He & Hp & Hc & Hw).
  exists embedded_logs, pod_logs.
  set (logs := visited embedded_logs pod_logs (analyze_syslog hours)) in *.
  assert (Hcrit : ∀ i, i ∈ critical_issues report → critical_text (issue i) = true).
  { intros i Hi. rewrite Hc in Hi. apply list_elem_of_In in Hi.
    apply in_map_iff in Hi as (sl & <- & Hsl).
    apply filter_In in Hsl as [_ Hsl]. exact Hsl. }
  split_and!; try done.
  - intros w Hw'. rewrite Hw in Hw'. apply list_elem_of_In in Hw'.
    apply in_map_iff in Hw' as (sl & <- & Hsl).
    apply filter_In in Hsl as [_ Hsl]. by apply negb_true_iff in Hsl.
  - intros src log Hin Hrc. rewrite Hw. apply list_elem_of_In.
    apply in_map_iff. exists (src, log). split; [done|].
    apply filter_In. split; [by apply list_elem_of_In|].
    unfold critical_log. cbn [snd]. by rewrite Hrc.
  - intros i Hi Hrc. apply Hcrit in Hi. rewrite Hrc in Hi.
    discriminate Hi.
Qed.

(** C8: for every report the consolidated analysis returns, the status
    is "unhealthy" exactly when [critical_issues] is not empty and
    "healthy" exactly when it is empty; [critical_issues_count] and
    [warnings_count] are the lengths of their sequences, and
    [log_sources_available] is the number of entries of
    [log_sources_analyzed]. *)
Theorem system_status_consistent hours report :
  analyze_all_logs analyze_embedded_cluster_logs analyze_pod_logs
    analyze_syslog now_isoformat str hours = Ok report →
  (status (system_status report) = "unhealthy" ↔ critical_issues report ≠ [])
  ∧ (status (system_status report) = "healthy" ↔ critical_issues report = [])
  ∧ critical_issues_count (system_status report)
    = Z.of_nat (length (critical_issues report))
  ∧ warnings_count (system_status report)
    = Z.of_nat (length (warnings report))
  ∧ log_sources_available (system_status report)
    = Z.of_nat (length (log_sources_analyzed report)).
Proof.
  unfold analyze_all_logs.
  destruct (collect _ _ _ hours) as [st|e]; [|discriminate].
  intros Hrun. injection Hrun as <-.
  cbn [system_status status critical_issues warnings log_sources_analyzed
       critical_issues_count warnings_count log_sources_available].
  destruct (l_critical st) as [|i crit]; split_and!; try done.
Qed.
End Run.
End Aggregator.

Section AggregatorRuns.
Import PyStr ModelLoader ApiServer Aggregate.

Lemma classification_by_root_cause_witness :
  map issue (critical_issues Samples.report_sample)
  = ["Helm release installation or upgrade failed"]
  ∧ map issue (warnings Samples.report_sample) = ["Unknown issue"]
  ∧ ∀ i, i ∈ critical_issues Samples.report_sample → issue i ≠ "Unknown issue".
Proof.
  split; [by vm_compute|]. split; [by vm_compute|].
  destruct (classification_by_root_cause
              Samples.embedded_sample Samples.pods_sample Samples.syslog_sample
              "2025-01-01T00:00:00" Samples.str_sample 24 Samples.report_sample)
    as (embedded_logs & pod_logs & _ & _ & _ & _ & _ & _ & _ & H).
  - by vm_compute.
  - exact H.
Defined.

Lemma system_status_consistent_witness :
  status (system_status Samples.report_sample) = "unhealthy"
  ∧ critical_issues Samples.report_sample ≠ []
  ∧ critical_issues_count (system_status Samples.report_sample) = 1
  ∧ warnings_count (system_status Samples.report_sample) = 1
  ∧ log_sources_available (system_status Samples.report_sample) = 1.
Proof.
  destruct (system_status_consistent
              Samples.embedded_sample Samples.pods_sample Samples.syslog_sample
              "2025-01-01T00:00:00" Samples.str_sample 24 Samples.report_sample)
    as ([_ Hu] & _ & Hc & Hw & Hs).
  - by vm_compute.
  - split_and!.
    + apply Hu. by vm_compute.
    + by vm_compute.
    + rewrite Hc. by vm_compute.
    + rewrite Hw. by vm_compute.
    + rewrite Hs. by vm_compute.
Defined.

(** The scenarios of the specification: the helm text is critical, the
    unmatched text is a warning. *)
Example unknown_issue_is_warning : critical_text "Unknown issue" = false.
Proof. by vm_compute. Qed.

Example helm_release_failure_is_critical :
  critical_text (root_cause (Samples.diagnose Samples.helm_text)) = true.
Proof. by vm_compute. Qed.
End AggregatorRuns.

(** ** More on the context extractor *)

Section ContextWindows.
Import PyStr Re ModelLoader.

Lemma rstrip_idempotent s : rstrip (rstrip s) = rstrip s.
Proof.
  induction s as [|c s IH]; [done|]. cbn [rstrip].
  destruct (isspace c && is_empty (rstrip s)) eqn:Hc; [done|].
  cbn [rstrip]. by rewrite IH, Hc.
Qed.

(** Stripping a stripped line changes nothing. *)
Lemma strip_idempotent s : strip (strip s) = strip s.
Proof.
  unfold strip. destruct (Spec.whitespace_only s) eqn:Hs.
  - by rewrite (lstrip_whitespace_only s Hs).
  - destruct (lstrip_starts_with_text s Hs) as (c & s' & -> & Hc).
    cbn [rstrip]. rewrite Hc. cbn [andb lstrip]. rewrite Hc.
    cbn [rstrip]. rewrite Hc. cbn [andb]. by rewrite rstrip_idempotent.
Qed.

Lemma clean_lines_stripped text l :
  l ∈ clean_lines text → l ≠ EmptyString ∧ strip l = l.
Proof.
  unfold clean_lines. intros Hl. apply list_elem_of_In in Hl.
  apply in_map_iff in Hl as (x & <- & Hx).
  apply filter_In in Hx as [_ Hx]. split.
  - intros Hnil. rewrite Hnil in Hx. discriminate Hx.
  - apply strip_idempotent.
Qed.

Lemma slice_subseteq {A} (l : list A) start stop : slice l start stop ⊆ l.
Proof.
  unfold slice. etrans; [apply subseteq_take | apply subseteq_drop].
Qed.

Lemma slice_length {A} (l : list A) start stop :
  (length (slice l start stop) ≤ Z.to_nat (stop - start))%nat.
Proof. unfold slice. rewrite length_take. lia. Qed.

(** The window of an index within bounds holds the line at that index. *)
Lemma slice_window_lookup {A} (l : list A) (i : nat) (x : A) :
  l !! i = Some x →
  x ∈ slice l (Z.max 0 (Z.of_nat i - 2))
        (Z.min (Z.of_nat (length l)) (Z.of_nat i + 3)).
Proof.
  intros Hx. pose proof (lookup_lt_Some _ _ _ Hx) as Hlt.
  unfold slice.
  apply (list_elem_of_lookup_2 _ (i - Z.to_nat (Z.max 0 (Z.of_nat i - 2)))).
  rewrite lookup_take_lt by lia. rewrite lookup_drop.
  replace (Z.to_nat (Z.max 0 (Z.of_nat i - 2))
           + (i - Z.to_nat (Z.max 0 (Z.of_nat i - 2))))%nat with i by lia.
  exact Hx.
Qed.

(** What the loop has collected stays, and only cleaned lines are added. *)
Lemma scan_lines_elem lines rest :
  ∀ i error_lines l,
    l ∈ scan_lines lines i rest error_lines → l ∈ error_lines ∨ l ∈ lines.
Proof.
  induction rest as [|line rest IH]; intros i error_lines l;
    cbn [scan_lines]; [by left|].
  intros Hl. apply IH in Hl as [Hl|Hl]; [|by right].
  destruct (is_error_line line); [|by left].
  apply elem_of_app in Hl as [Hl|Hl]; [by left|].
  right. by eapply slice_subseteq.
Qed.

Lemma scan_lines_keeps lines rest :
  ∀ i error_lines l,
    l ∈ error_lines → l ∈ scan_lines lines i rest error_lines.
Proof.
  induction rest as [|line rest IH]; intros i error_lines l Hl;
    cbn [scan_lines]; [done|].
  apply IH. destruct (is_error_line line); [|done].
  apply elem_of_app. by left.
Qed.

Lemma scan_lines_fault_kept lines rest :
  ∀ (i : nat) error_lines (k : nat) l,
    (∀ j x, rest !! j = Some x → lines !! (i + j)%nat = Some x) →
    rest !! k = Some l →
    is_error_line l = true →
    l ∈ scan_lines lines (Z.of_nat i) rest error_lines.
Proof.
  induction rest as [|line rest IH]; intros i error_lines k l Hrest Hk Hl;
    [done|].
  cbn [scan_lines]. destruct k as [|k].
  - injection Hk as ->. rewrite Hl. apply scan_lines_keeps.
    apply elem_of_app. right. apply slice_window_lookup.
    specialize (Hrest 0%nat l eq_refl). by rewrite Nat.add_0_r in Hrest.
  - replace (Z.of_nat i + 1) with (Z.of_nat (S i)) by lia.
    apply (IH (S i) _ k); [|done|done].
    intros j x Hj. specialize (Hrest (S j) x Hj).
    by replace (S i + j)%nat with (i + S j)%nat by lia.
Qed.

Lemma scan_lines_length lines rest :
  ∀ i error_lines,
    (length (scan_lines lines i rest error_lines)
     ≤ length error_lines + 5 * length (List.filter is_error_line rest))%nat.
Proof.
  induction rest as [|line rest IH]; intros i error_lines;
    cbn [scan_lines List.filter]; [lia|].
  etrans; [apply IH|]. destruct (is_error_line line); [|lia].
  rewrite length_app. cbn [length].
  pose proof (slice_length lines (Z.max 0 (i - 2))
                (Z.min (Z.of_nat (length lines)) (i + 3))).
  lia.
Qed.

(** X1: every line of the extracted context is one of the cleaned lines of
    the text: it is not empty and it has no whitespace at either end. *)
Theorem extract_error_context_lines_cleaned text l :
  l ∈ extract_error_context text →
  l ∈ clean_lines text ∧ l ≠ EmptyString ∧ strip l = l.
Proof.
  intros Hl.
  assert (Hin : l ∈ clean_lines text).
  { unfold extract_error_context in Hl. cbv zeta in Hl.
    destruct (scan_lines (clean_lines text) 0 (clean_lines text) [])
      as [|x xs] eqn:Hscan; [done|].
    rewrite <- Hscan in Hl. apply scan_lines_elem in Hl as [Hl|Hl]; [|done].
    by apply elem_of_nil in Hl. }
  split; [done|]. by apply (clean_lines_stripped text).
Qed.

Lemma extract_error_context_lines_cleaned_witness :
  "an Error" ∈ clean_lines Samples.eight_line_text
  ∧ "an Error" ≠ EmptyString ∧ strip "an Error" = "an Error".
Proof.
  apply (extract_error_context_lines_cleaned Samples.eight_line_text).
  apply (bool_decide_unpack _). by vm_compute.
Defined.

(** X2: every cleaned line that names a fault (contains one of the keywords,
    case-insensitively) is in the extracted context. *)
Theorem extract_error_context_keeps_fault_lines text l :
  l ∈ clean_lines text →
  is_error_line l = true →
  l ∈ extract_error_context text.
Proof.
  intros Hin Hl. apply list_elem_of_lookup_1 in Hin as [k Hk].
  assert (Hscan : l ∈ scan_lines (clean_lines text) 0 (clean_lines text) []).
  { apply (scan_lines_fault_kept (clean_lines text) (clean_lines text) 0%nat [] k);
      done. }
  unfold extract_error_context. cbv zeta.
  destruct (scan_lines (clean_lines text) 0 (clean_lines text) []);
    [by apply elem_of_nil in Hscan | done].
Qed.

Lemma extract_error_context_keeps_fault_lines_witness :
  "FAILED x" ∈ extract_error_context Samples.eight_line_text.
Proof.
  apply (extract_error_context_keeps_fault_lines Samples.eight_line_text).
  - apply (bool_decide_unpack _). by vm_compute.
  - by vm_compute.
Defined.

(** X3: the extracted context is never longer than the larger of the number
    of cleaned lines and five times the number of fault lines: each fault
    line adds a window of at most five lines. *)
Theorem extract_error_context_length text :
  (length (extract_error_context text)
   ≤ Nat.max (length (clean_lines text))
       (5 * length (List.filter is_error_line (clean_lines text))))%nat.
Proof.
  unfold extract_error_context. cbv zeta.
  pose proof (scan_lines_length (clean_lines text) (clean_lines text) 0 [])
    as Hlen.
  destruct (scan_lines (clean_lines text) 0 (clean_lines text) []);
    cbn [length] in *; lia.
Qed.
End ContextWindows.

(** ** More on the rule engine *)

Section RuleEngine.
Import PyStr Re ModelLoader.

Lemma lower_char_idempotent c : lower_char (lower_char c) = lower_char c.
Proof. destruct c as [[] [] [] [] [] [] [] []]; by vm_compute. Qed.

Lemma lower_idempotent s : lower (lower s) = lower s.
Proof.
  induction s as [|c s IH]; [done|]. cbn [lower].
  by rewrite lower_char_idempotent, IH.
Qed.

Lemma lower_app s t : lower (s +:+ t) = lower s +:+ lower t.
Proof.
  induction s as [|c s IH]; [done|].
  rewrite append_cons. cbn [lower]. by rewrite IH, append_cons.
Qed.

(** X4: the rule engine is case-insensitive: lowercasing the text changes
    neither the matched patterns nor which lines name a fault, and
    lowercasing a label does not change its next steps. *)
Theorem rule_engine_case_insensitive (s : string) :
  identify_patterns (lower s) = identify_patterns s
  ∧ is_error_line (lower s) = is_error_line s
  ∧ get_next_steps (lower s) = get_next_steps s.
Proof.
  unfold identify_patterns, is_error_line, get_next_steps.
  by rewrite lower_idempotent.
Qed.

(** A word of a line-feed-free regex holds no line feed. *)
Lemma nl_free_matches r s :
  matches r s → Props.nl_free r = true →
  forallb (fun c => negb (code c =? 10)%N) (chars s) = true.
Proof.
  induction 1 as
    [|c|c Hc|r1 r2 s1 s2 H1 IH1 H2 IH2|r1 r2 s H IH|r1 r2 s H IH|r
     |r s1 s2 H1 IH1 H2 IH2]; cbn [Props.nl_free]; intros Hfree;
    try apply andb_true_iff in Hfree as [Hf1 Hf2]; try done.
  - cbn [chars forallb]. by rewrite Hfree.
  - cbn [chars forallb]. unfold dot_ok in Hc. by rewrite Hc.
  - specialize (IH1 Hf1). specialize (IH2 Hf2). revert IH1 IH2.
    clear. induction s1 as [|c s1 IH]; [done|].
    rewrite append_cons. cbn [chars forallb].
    intros [-> H1]%andb_true_iff H2. by apply IH.
  - by apply IH.
  - by apply IH.
  - specialize (IH1 Hfree). specialize (IH2 Hfree). revert IH1 IH2.
    clear. induction s1 as [|c s1 IH]; [done|].
    rewrite append_cons. cbn [chars forallb].
    intros [-> H1]%andb_true_iff H2. by apply IH.
Qed.

(** A word without line feed that begins a text of the form
    [a], line feed, [b] lies within [a]. *)
Lemma prefix_before_line_feed s1 : ∀ s2 a b,
  forallb (fun c => negb (code c =? 10)%N) (chars s1) = true →
  s1 +:+ s2 = a +:+ newline +:+ b →
  ∃ t, a = s1 +:+ t.
Proof.
  induction s1 as [|c s1 IH]; intros s2 a b Hfree Heq.
  - by exists a.
  - cbn [chars forallb] in Hfree. apply andb_true_iff in Hfree as [Hc Hfree].
    rewrite append_cons in Heq. destruct a as [|c' a].
    + injection Heq as -> _. discriminate Hc.
    + rewrite append_cons in Heq. injection Heq as <- Heq.
      destruct (IH _ _ _ Hfree Heq) as [t ->]. by exists t.
Qed.

Lemma substring_beside_line_feed s0 : ∀ s1 s2 a b,
  forallb (fun c => negb (code c =? 10)%N) (chars s1) = true →
  s0 +:+ s1 +:+ s2 = a +:+ newline +:+ b →
  (∃ t, a = s0 +:+ s1 +:+ t) ∨ (∃ t, b = t +:+ s1 +:+ s2).
Proof.
  induction s0 as [|c s0 IH]; intros s1 s2 a b Hfree Heq.
  - left. by apply (prefix_before_line_feed s1 s2 a b).
  - rewrite append_cons in Heq. destruct a as [|c' a].
    + right. injection Heq as _ Heq. by exists s0.
    + rewrite append_cons in Heq. injection Heq as <- Heq.
      destruct (IH _ _ _ _ Hfree Heq) as [[t ->]|[t ->]].
      * left. by exists t.
      * right. by exists t.
Qed.

(** A line-feed-free regex is found in a text exactly when it is found on
    one side of a line feed of the text. *)
Lemma search_beside_line_feed r a b :
  Props.nl_free r = true →
  search r (a +:+ newline +:+ b) = search r a || search r b.
Proof.
  intros Hfree. apply eq_true_iff_eq.
  rewrite orb_true_iff, !search_spec. split.
  - intros (s0 & s1 & s2 & Heq & Hm).
    pose proof (nl_free_matches _ _ Hm Hfree) as Hs1. symmetry in Heq.
    destruct (substring_beside_line_feed _ _ _ _ _ Hs1 Heq) as [[t ->]|[t ->]].
    + left. by exists s0, s1, t.
    + right. by exists t, s1, s2.
  - intros [(s0 & s1 & s2 & -> & Hm)|(s0 & s1 & s2 & -> & Hm)].
    + exists s0, s1, (s2 +:+ newline +:+ b). split; [|done].
      by rewrite !append_assoc.
    + exists (a +:+ newline +:+ s0), s1, s2. split; [|done].
      by rewrite !append_assoc.
Qed.

Lemma ERROR_PATTERNS_nl_free e :
  e ∈ ERROR_PATTERNS →
  ∃ r, compile e.1 = Some r ∧ Props.nl_free r = true.
Proof.
  intros He.
  assert (Hall : forallb
            (fun e : string * string =>
               match compile e.1 with
               | Some r => Props.nl_free r
               | None => false
               end) ERROR_PATTERNS = true) by (by vm_compute).
  rewrite forallb_forall in Hall. apply list_elem_of_In in He.
  specialize (Hall e He). destruct (compile e.1) as [r|]; [|discriminate].
  by exists r.
Qed.

(** X5: no signature of the catalog matches across a line feed: the
    patterns found in a text made of two parts separated by a line feed are
    those found in one part or the other. *)
Theorem identify_patterns_line_local a b e :
  e ∈ identify_patterns (a +:+ newline +:+ b)
  ↔ e ∈ identify_patterns a ∨ e ∈ identify_patterns b.
Proof.
  rewrite !identify_patterns_filter. unfold Spec.matched.
  rewrite !(elem_of_filter_bool _ ERROR_PATTERNS e).
  assert (Hlower : lower (a +:+ newline +:+ b)
                   = lower a +:+ newline +:+ lower b).
  { by rewrite !lower_app. }
  rewrite Hlower. split.
  - intros [He Hs]. destruct (ERROR_PATTERNS_nl_free e He) as (r & Hr & Hfree).
    unfold re_search in *. rewrite Hr in *.
    rewrite (search_beside_line_feed r _ _ Hfree) in Hs.
    apply orb_true_iff in Hs as [Hs|Hs]; [left | right]; by split.
  - intros [[He Hs]|[He Hs]];
      destruct (ERROR_PATTERNS_nl_free e He) as (r & Hr & Hfree);
      (split; [done|]); unfold re_search in *; rewrite Hr in *;
      rewrite (search_beside_line_feed r _ _ Hfree), Hs;
      [done | apply orb_true_r].
Qed.
End RuleEngine.

(** ** More on the single-source analyzer *)

Section AnalyzerComposition.
Import PyStr Re ModelLoader.

Lemma elem_of_identify_patterns text e :
  e ∈ identify_patterns text
  ↔ e ∈ ERROR_PATTERNS ∧ re_search e.1 (lower text) = true.
Proof.
  rewrite identify_patterns_filter. unfold Spec.matched.
  apply (elem_of_filter_bool
           (fun e : string * string => re_search e.1 (lower text))).
Qed.

(** The resolved root cause is the label of a match, or the literal when
    nothing matched. *)
Lemma resolved_root_cause_justified text :
  (identify_patterns text = [] ∧ Spec.resolved_root_cause text = "Unknown issue")
  ∨ ∃ signature,
      (signature, Spec.resolved_root_cause text) ∈ identify_patterns text.
Proof.
  rewrite identify_patterns_filter. unfold Spec.resolved_root_cause.
  destruct (List.find _ (Spec.matched text)) as [[p c]|] eqn:Hfind.
  - right. exists p. apply find_some in Hfind as [Hin _].
    by apply list_elem_of_In.
  - destruct (Spec.matched text) as [|[p c] rest]; [by left|].
    right. exists p. by left.
Qed.

Lemma analyze_log_fields clf text d :
  analyze_log clf text = Ok d →
  root_cause d = Spec.resolved_root_cause text
  ∧ next_steps d = get_next_steps (Spec.resolved_root_cause text)
  ∧ context d = Spec.context_text_of text
  ∧ timestamp d = None.
Proof.
  intros Hd. apply analyze_log_inv in Hd as (inputs & outputs & _ & _ & ->).
  by split_and!.
Qed.

(** X6: the root cause of a returned Diagnosis is always justified by the
    text: it is the label of a catalog entry whose signature was found in
    the text, or it is "Unknown issue" and no signature was found. *)
Theorem analyze_log_root_cause_justified clf text d :
  analyze_log clf text = Ok d →
  (identify_patterns text = [] ∧ root_cause d = "Unknown issue")
  ∨ ∃ signature,
      (signature, root_cause d) ∈ ERROR_PATTERNS
      ∧ re_search signature (lower text) = true.
Proof.
  intros Hd. destruct (analyze_log_fields _ _ _ Hd) as (-> & _).
  destruct (resolved_root_cause_justified text) as [H|[p Hp]]; [by left|].
  right. exists p. by apply elem_of_identify_patterns in Hp.
Qed.

Lemma analyze_log_root_cause_justified_witness :
  (identify_patterns Samples.helm_text = []
   ∧ root_cause (Samples.diagnose Samples.helm_text) = "Unknown issue")
  ∨ ∃ signature,
      (signature, root_cause (Samples.diagnose Samples.helm_text))
        ∈ ERROR_PATTERNS
      ∧ re_search signature (lower Samples.helm_text) = true.
Proof.
  apply (analyze_log_root_cause_justified (Samples.steady "0.53")).
  by vm_compute.
Defined.

Lemma resolved_root_cause_mentions text :
  existsb mentions_helm_or_kots (identify_patterns text) = true →
  contains_any ["helm"; "kots"] (lower (Spec.resolved_root_cause text)) = true.
Proof.
  intros Hex. rewrite <- root_cause_resolution.
  apply existsb_exists in Hex as (m & Hin & Hm).
  destruct (identify_patterns text) as [|first rest];
    [by apply in_nil in Hin|].
  destruct (List.filter mentions_helm_or_kots (first :: rest))
    as [|m' ms] eqn:Hfilter.
  - assert (Hf : In m (List.filter mentions_helm_or_kots (first :: rest)))
      by (by apply filter_In).
    rewrite Hfilter in Hf. by apply in_nil in Hf.
  - assert (Hf : In m' (List.filter mentions_helm_or_kots (first :: rest)))
      by (rewrite Hfilter; by left).
    apply filter_In in Hf as [_ Hf]. exact Hf.
Qed.

Lemma get_next_steps_domain label :
  contains_any ["helm"; "kots"] (lower label) = true →
  get_next_steps label = helm_steps ∨ get_next_steps label = kots_steps.
Proof.
  unfold contains_any, get_next_steps. cbn [existsb]. intros Hm.
  destruct (contains "helm" (lower label)); [by left|].
  destruct (contains "kots" (lower label)); [by right | discriminate Hm].
Qed.

(** X7: when the label of some matched entry names helm or kots, the
    returned root cause names helm or kots too, and the next steps are the
    Helm-specific or the KOTS-specific ones. *)
Theorem analyze_log_domain_steps clf text d :
  analyze_log clf text = Ok d →
  existsb mentions_helm_or_kots (identify_patterns text) = true →
  contains_any ["helm"; "kots"] (lower (root_cause d)) = true
  ∧ (next_steps d = helm_steps ∨ next_steps d = kots_steps).
Proof.
  intros Hd Hex. destruct (analyze_log_fields _ _ _ Hd) as (-> & -> & _).
  pose proof (resolved_root_cause_mentions text Hex) as Hm.
  split; [exact Hm|]. by apply get_next_steps_domain.
Qed.

Lemma analyze_log_domain_steps_witness :
  contains_any ["helm"; "kots"]
    (lower (root_cause (Samples.diagnose Samples.helm_text))) = true
  ∧ (next_steps (Samples.diagnose Samples.helm_text) = helm_steps
     ∨ next_steps (Samples.diagnose Samples.helm_text) = kots_steps).
Proof.
  apply (analyze_log_domain_steps (Samples.steady "0.53") Samples.helm_text);
    by vm_compute.
Defined.

(** X8: of all the root causes [analyze_log] can return, exactly seven make
    a Diagnosis critical in the consolidated analysis; every other label, and
    "Unknown issue", makes a warning. *)
Theorem analyze_log_critical_labels clf text d :
  analyze_log clf text = Ok d →
  (Aggregate.critical_text (root_cause d) = true
   ↔ root_cause d ∈ Props.CRITICAL_LABELS).
Proof.
  intros Hd.
  assert (Hlabels : Forall
            (fun l => Aggregate.critical_text l
                      = bool_decide (l ∈ Props.CRITICAL_LABELS))
            ("Unknown issue" :: ERROR_PATTERNS.*2)).
  { apply (bool_decide_unpack _). by vm_compute. }
  rewrite Forall_forall in Hlabels.
  assert (Hin : root_cause d ∈ "Unknown issue" :: ERROR_PATTERNS.*2).
  { destruct (analyze_log_fields _ _ _ Hd) as (Hr & _).
    destruct (resolved_root_cause_justified text) as [[_ Hu]|[p Hp]].
    - rewrite Hr, Hu. by left.
    - rewrite <- Hr in Hp. apply elem_of_identify_patterns in Hp as [Hp _].
      right. apply list_elem_of_fmap. by exists (p, root_cause d). }
  rewrite (Hlabels _ Hin). apply bool_decide_eq_true.
Qed.

Lemma analyze_log_critical_labels_witness :
  Aggregate.critical_text (root_cause (Samples.diagnose Samples.helm_text)) = true
  ↔ root_cause (Samples.diagnose Samples.helm_text) ∈ Props.CRITICAL_LABELS.
Proof.
  apply (analyze_log_critical_labels (Samples.steady "0.53") Samples.helm_text).
  by vm_compute.
Defined.
End AnalyzerComposition.

(** ** More on the multi-source aggregator *)

Section AggregatorAccounts.
Import PyStr ModelLoader ApiServer Aggregate.

Lemma filter_length_split {A} (p : A → bool) (l : list A) :
  (length (List.filter p l) + length (List.filter (fun x => negb (p x)) l)
   = length l)%nat.
Proof.
  induction l as [|x l IH]; cbn [List.filter]; [done|].
  destruct (p x); cbn [negb length]; lia.
Qed.

Lemma analyze_source_sources src logs st :
  l_sources (analyze_source src logs st)
  = l_sources st ++ match logs with [] => [] | _ :: _ => [src] end.
Proof.
  destruct logs as [|log logs].
  - cbn [analyze_source]. by rewrite app_nil_r.
  - unfold analyze_source.
    destruct (classify_loop src (log :: logs) (add_source src st))
      as (_ & _ & ->). done.
Qed.

Section Run.
Variable analyze_embedded_cluster_logs : Z → result (list LogFileResponse).
Variable analyze_pod_logs : Z → result (list LogFileResponse).
Variable analyze_syslog : Z → result LogFileResponse.
Variable now_isoformat : string.
Variable str : exn → string.

(** What a returned report is made of. *)
Lemma analyze_all_logs_inv hours report :
  analyze_all_logs analyze_embedded_cluster_logs analyze_pod_logs
    analyze_syslog now_isoformat str hours = Ok report →
  ∃ embedded_logs pod_logs,
    analyze_embedded_cluster_logs hours = Ok embedded_logs
    ∧ analyze_pod_logs hours = Ok pod_logs
    ∧ (∀ msg, analyze_syslog hours ≠ Raise (Exception msg))
    ∧ log_sources_analyzed report
      = Props.sources_of embedded_logs pod_logs (analyze_syslog hours)
    ∧ critical_issues_count (system_status report)
      = Z.of_nat (length (critical_issues report))
    ∧ warnings_count (system_status report)
      = Z.of_nat (length (warnings report))
    ∧ log_sources_available (system_status report)
      = Z.of_nat (length (log_sources_analyzed report))
    ∧ response_timestamp report = now_isoformat.
Proof.
  unfold analyze_all_logs, collect.
  destruct (analyze_embedded_cluster_logs hours) as [embedded_logs|e];
    cbn [mbind result_bind]; [|discriminate].
  destruct (analyze_pod_logs hours) as [pod_logs|e];
    cbn [mbind result_bind]; [|discriminate].
  intros Hrun. exists embedded_logs, pod_logs.
  split; [done|]. split; [done|].
  set (st0 := {| l_critical := []; l_warnings := []; l_sources := [] |}) in Hrun.
  pose proof (analyze_source_sources "pods" pod_logs
                (analyze_source "embedded-cluster" embedded_logs st0)) as Hs.
  pose proof (analyze_source_sources "embedded-cluster" embedded_logs st0)
    as Hs0.
  subst st0. cbn [l_sources app] in Hs0. rewrite Hs0 in Hs. clear Hs0.
  unfold Props.sources_of.
  destruct (analyze_syslog hours) as [syslog|[msg|code detail]].
  - injection Hrun as <-.
    cbn [log_sources_analyzed system_status critical_issues warnings
         critical_issues_count warnings_count log_sources_available
         response_timestamp].
    split; [done|]. split; [|done].
    unfold classify.
    destruct (is_critical syslog); cbn [l_sources add_source];
      by rewrite Hs, <- app_assoc.
  - discriminate Hrun.
  - injection Hrun as <-.
    cbn [log_sources_analyzed system_status critical_issues warnings
         critical_issues_count warnings_count log_sources_available
         response_timestamp].
    split; [done|]. split; [|done]. by rewrite Hs, app_nil_r.
Qed.

(** X9: in every returned report the two counts add up to the number of
    Diagnoses the analysis went through: each log of the embedded-cluster
    and pod endpoints, and the syslog when it is available, is counted once,
    as critical or as a warning. *)
Theorem analyze_all_logs_accounts hours report :
  analyze_all_logs analyze_embedded_cluster_logs analyze_pod_logs
    analyze_syslog now_isoformat str hours = Ok report →
  ∃ embedded_logs pod_logs,
    analyze_embedded_cluster_logs hours = Ok embedded_logs
    ∧ analyze_pod_logs hours = Ok pod_logs
    ∧ critical_issues_count (system_status report)
      + warnings_count (system_status report)
      = Z.of_nat (length embedded_logs) + Z.of_nat (length pod_logs)
        + match analyze_syslog hours with Ok _ => 1 | Raise _ => 0 end.
Proof.
  intros Hrun.
  destruct (analyze_all_logs_lists _ _ _ _ _ hours report Hrun)
    as (embedded_logs & pod_logs & He & Hp & Hc & Hw).
  destruct (analyze_all_logs_inv hours report Hrun)
    as (e' & p' & _ & _ & _ & _ & -> & -> & _).
  exists embedded_logs, pod_logs. split; [done|]. split; [done|].
  rewrite Hc, Hw, !length_map.
  pose proof (filter_length_split critical_log
                (visited embedded_logs pod_logs (analyze_syslog hours))) as Hsum.
  unfold visited in Hsum at 3. rewrite !length_app, !length_map in Hsum.
  destruct (analyze_syslog hours); cbn [length] in Hsum; lia.
Qed.

(** X10: the sources a returned report lists are, in this order,
    "embedded-cluster" when that endpoint returned at least one log, "pods"
    when the pod endpoint returned at least one log, and "syslog" when the
    syslog endpoint returned; so at most three sources are available, none
    twice. *)
Theorem analyze_all_logs_sources hours report :
  analyze_all_logs analyze_embedded_cluster_logs analyze_pod_logs
    analyze_syslog now_isoformat str hours = Ok report →
  ∃ embedded_logs pod_logs,
    analyze_embedded_cluster_logs hours = Ok embedded_logs
    ∧ analyze_pod_logs hours = Ok pod_logs
    ∧ log_sources_analyzed report
      = Props.sources_of embedded_logs pod_logs (analyze_syslog hours)
    ∧ log_sources_analyzed report
        `sublist_of` ["embedded-cluster"; "pods"; "syslog"]
    ∧ 0 ≤ log_sources_available (system_status report) ≤ 3.
Proof.
  intros Hrun.
  destruct (analyze_all_logs_inv hours report Hrun)
    as (embedded_logs & pod_logs & He & Hp & _ & Hs & _ & _ & Hn & _).
  exists embedded_logs, pod_logs. split; [done|]. split; [done|].
  split; [done|]. rewrite Hn, Hs. unfold Props.sources_of.
  destruct embedded_logs, pod_logs, (analyze_syslog hours);
    cbn [app length]; (split; [|lia]);
    repeat first [apply sublist_nil | apply sublist_skip | apply sublist_cons].
Qed.


(** X12: the consolidated analysis fails exactly when the embedded-cluster
    endpoint or the pod endpoint raises, or the syslog endpoint raises
    something other than an HTTPException; the failure is always an
    HTTPException with status 500.  An HTTPException of the syslog endpoint
    never fails it. *)
Theorem analyze_all_logs_failure hours :
  match analyze_all_logs analyze_embedded_cluster_logs analyze_pod_logs
          analyze_syslog now_isoformat str hours with
  | Ok _ =>
      (∃ logs, analyze_embedded_cluster_logs hours = Ok logs)
      ∧ (∃ logs, analyze_pod_logs hours = Ok logs)
      ∧ ∀ msg, analyze_syslog hours ≠ Raise (Exception msg)
  | Raise e =>
      ∃ cause, e = HTTPException 500 ("Error analyzing all logs: " +:+ str cause)
               ∧ (analyze_embedded_cluster_logs hours = Raise cause
                  ∨ analyze_pod_logs hours = Raise cause
                  ∨ (analyze_syslog hours = Raise cause
                     ∧ ∃ msg, cause = Exception msg))
  end.
Proof.
  unfold analyze_all_logs, collect.
  destruct (analyze_embedded_cluster_logs hours) as [embedded_logs|e];
    cbn [mbind result_bind]; [|exists e; split; [done | by left]].
  destruct (analyze_pod_logs hours) as [pod_logs|e];
    cbn [mbind result_bind]; [|exists e; split; [done | right; by left]].
  destruct (analyze_syslog hours) as [syslog|[msg|code detail]].
  - split_and!; by eauto.
  - exists (Exception msg). split; [done|]. right. right. by eauto.
  - split_and!; by eauto.
Qed.
End Run.
End AggregatorAccounts.

(** ** The per-source endpoints *)

Section EndpointProofs.
Import PyStr ModelLoader ApiServer Endpoints.

Lemma or_500_raise {A} w prefix (m : result A) e :
  or_500 w prefix m = Raise e →
  ∃ cause, m = Raise cause ∧ e = HTTPException 500 (prefix +:+ str w cause).
Proof.
  destruct m as [a|cause]; cbn [or_500]; [discriminate|].
  intros H. injection H as <-. by exists cause.
Qed.


(** X13: [analyze_syslog] never answers 404: when /logs/syslog does not
    exist, the 404 it raises is caught by its own handler and raised again
    as a 500; every failure of the endpoint is an HTTPException with status
    500, and a returned entry is named "syslog". *)
Theorem analyze_syslog_outcome w hours :
  match analyze_syslog w hours with
  | Ok log => path_exists w "/logs/syslog" = true ∧ filename log = "syslog"
  | Raise e =>
      ∃ cause,
        e = HTTPException 500 ("Error analyzing syslog: " +:+ str w cause)
        ∧ (path_exists w "/logs/syslog" = false →
           cause = HTTPException 404 "Syslog file not found")
  end.
Proof.
  unfold analyze_syslog. cbv zeta.
  destruct (path_exists w "/logs/syslog"); cbn [negb or_500].
  - destruct (open_read w "/logs/syslog") as [log_text|e];
      cbn [mbind result_bind or_500]; [|by exists e].
    destruct (analyze_log (classifier w) log_text) as [d|e];
      cbn [mbind result_bind or_500]; [|by exists e].
    destruct (getmtime w "/logs/syslog") as [mtime|e];
      cbn [mbind result_bind or_500]; [|by exists e].
    destruct (fromtimestamp_isoformat w mtime) as [ts|e];
      cbn [mbind result_bind or_500]; [done | by exists e].
  - by eexists.
Qed.

Lemma analyze_syslog_http w hours e :
  analyze_syslog w hours = Raise e → ∃ code detail, e = HTTPException code detail.
Proof.
  intros H. apply or_500_raise in H as (cause & _ & ->). by eexists _, _.
Qed.

(** X14: on a given file system the consolidated analysis returns a report
    exactly when the embedded-cluster endpoint and the pod endpoint return;
    a syslog that is missing or cannot be read or analyzed never fails it. *)
Theorem analyze_all_returns w hours :
  (∃ report, analyze_all w hours = Ok report)
  ↔ (∃ logs, analyze_embedded_cluster_logs w hours = Ok logs)
    ∧ (∃ logs, analyze_pod_logs w None None hours = Ok logs).
Proof.
  unfold analyze_all, analyze_all_logs, collect.
  destruct (analyze_embedded_cluster_logs w hours) as [embedded_logs|e];
    cbn [mbind result_bind];
    [|split; [by intros [? ?] | by intros [[? ?] _]]].
  destruct (analyze_pod_logs w None None hours) as [pod_logs|e];
    cbn [mbind result_bind];
    [|split; [by intros [? ?] | by intros [_ [? ?]]]].
  destruct (analyze_syslog w hours) as [syslog|[msg|code detail]] eqn:Hsys.
  - split; [by eauto | by eexists].
  - apply analyze_syslog_http in Hsys as (code & detail & Hsys).
    discriminate Hsys.
  - split; [by eauto | by eexists].
Qed.

Lemma omap_cons_match {A B} (f : A → option B) (x : A) (l : list A) :
  omap f (x :: l)
  = match f x with Some y => y :: omap f l | None => omap f l end.
Proof. reflexivity. Qed.

(** The loop of [get_pod_logs], when every modification time can be read. *)
Lemma pod_loop_omap w cutoff limit files :
  timestamp_of w cutoff = Ok limit →
  Forall (fun f => ∃ mtime, getmtime w f = Ok mtime) files →
  ∀ results printed,
    pod_loop w cutoff files results printed
    = Ok (results ++ omap (Props.entry_of w)
                       (List.filter (Props.is_fresh w limit) files),
          printed ++ omap (Props.complaint_of w)
                       (List.filter (Props.is_fresh w limit) files)).
Proof.
  intros Hlimit. induction 1 as [|f files [mtime Hm] _ IH];
    intros results printed; cbn [pod_loop List.filter].
  - cbn [omap list_omap]. by rewrite !app_nil_r.
  - assert (Hfresh : Props.is_fresh w limit f
                     = QArith_base.Qle_bool limit mtime)
      by (unfold Props.is_fresh; by rewrite Hm).
    rewrite Hm, Hlimit, Hfresh. cbn [mbind result_bind].
    destruct (QArith_base.Qle_bool limit mtime); [|apply IH].
    rewrite !omap_cons_match. unfold Props.entry_of at 1.
    unfold Props.complaint_of at 1.
    destruct (pod_entry w f) as [entry|e]; rewrite IH;
      by rewrite <- ?app_assoc.
Qed.

(** X15: in [get_pod_logs] a failure is contained in its file.  When the
    directory exists, the cutoff can be computed and every modification
    time can be read, the call returns: its entries are those of the fresh
    files that could be read and analyzed, in glob order; each fresh file
    that could not is reported by one printed line and skipped; stale files
    are never opened. *)
Theorem get_pod_logs_contains_failures w log_dir namespace pod_name hours
    cutoff limit :
  path_exists w log_dir = true →
  cutoff_time w hours = Ok cutoff →
  timestamp_of w cutoff = Ok limit →
  Forall (fun f => ∃ mtime, getmtime w f = Ok mtime)
    (glob w (search_pattern log_dir namespace pod_name)) →
  let fresh_files :=
    List.filter (Props.is_fresh w limit)
      (glob w (search_pattern log_dir namespace pod_name)) in
  get_pod_logs w log_dir namespace pod_name hours
  = Ok (omap (Props.entry_of w) fresh_files,
        omap (Props.complaint_of w) fresh_files)
  ∧ (length (omap (Props.entry_of w) fresh_files)
     + length (omap (Props.complaint_of w) fresh_files)
     = length fresh_files)%nat.
Proof.
  intros Hdir Hcut Hlimit Hm fresh_files. split.
  - unfold get_pod_logs. rewrite Hdir, Hcut. cbn [negb mbind result_bind].
    by rewrite (pod_loop_omap w cutoff limit _ Hlimit Hm).
  - clear. induction fresh_files as [|f fs IH]; [done|].
    rewrite !omap_cons_match. unfold Props.entry_of at 1.
    unfold Props.complaint_of at 1.
    destruct (pod_entry w f); cbn [length]; lia.
Qed.
End EndpointProofs.

Section EmbeddedCluster.
Import PyStr ModelLoader ApiServer Endpoints.

(** One file that is fresh and cannot be read makes the whole loop raise. *)
Lemma file_loop_raises w hours f mtime cutoff limit e files :
  f ∈ files →
  getmtime w f = Ok mtime →
  cutoff_time w hours = Ok cutoff →
  timestamp_of w cutoff = Ok limit →
  QArith_base.Qle_bool limit mtime = true →
  open_read w f = Raise e →
  ∀ results, ∃ cause, file_loop w hours files results = Raise cause.
Proof.
  intros Hin Hm Hcut Hlimit Hfresh Hread.
  induction files as [|g files IH]; intros results;
    [by apply elem_of_nil in Hin|].
  cbn [file_loop]. apply elem_of_cons in Hin as [<-|Hin].
  - rewrite Hm, Hcut. cbn [mbind result_bind]. rewrite Hlimit.
    cbn [mbind result_bind]. rewrite Hfresh, Hread. by eexists.
  - destruct (getmtime w g) as [m|c]; cbn [mbind result_bind]; [|by eexists].
    rewrite Hcut. cbn [mbind result_bind]. rewrite Hlimit.
    cbn [mbind result_bind].
    destruct (QArith_base.Qle_bool limit m); [|by apply IH].
    destruct (open_read w g) as [log_text|c]; cbn [mbind result_bind];
      [|by eexists].
    destruct (analyze_log (classifier w) log_text) as [d|c];
      cbn [mbind result_bind]; [|by eexists].
    destruct (fromtimestamp_isoformat w m) as [ts|c];
      cbn [mbind result_bind]; [by apply IH | by eexists].
Qed.

(** X16: in [analyze_embedded_cluster_logs] a failure is not contained in
    its file: one fresh log file of either directory that cannot be read
    makes the endpoint raise an HTTPException with status 500, whatever the
    other files and the services hold. *)
Theorem analyze_embedded_cluster_logs_aborts w hours dir f mtime cutoff limit e :
  dir = "/logs/embedded-cluster" ∨ dir = "/logs/embedded-cluster-data/logs" →
  path_exists w dir = true →
  f ∈ glob w (dir +:+ "/*.log") →
  getmtime w f = Ok mtime →
  cutoff_time w hours = Ok cutoff →
  timestamp_of w cutoff = Ok limit →
  QArith_base.Qle_bool limit mtime = true →
  open_read w f = Raise e →
  ∃ cause,
    analyze_embedded_cluster_logs w hours
    = Raise (HTTPException 500
               ("Error analyzing embedded-cluster logs: " +:+ str w cause)).
Proof.
  intros Hdir Hexists Hin Hm Hcut Hlimit Hfresh Hread.
  assert (Hloop : ∀ results, ∃ cause, dir_logs w hours dir results = Raise cause).
  { intros results. unfold dir_logs. rewrite Hexists.
    by apply (file_loop_raises w hours f mtime cutoff limit e). }
  unfold analyze_embedded_cluster_logs. destruct Hdir as [-> | ->].
  - destruct (Hloop []) as [cause ->]. by exists cause.
  - destruct (dir_logs w hours "/logs/embedded-cluster" []) as [results|cause];
      cbn [mbind result_bind]; [|by exists cause].
    destruct (Hloop results) as [cause ->]. by exists cause.
Qed.


Lemma file_loop_extends w hours files :
  ∀ results out,
    file_loop w hours files results = Ok out → ∃ more, out = results ++ more.
Proof.
  induction files as [|g files IH]; intros results out; cbn [file_loop].
  - intros H. injection H as <-. exists []. by rewrite app_nil_r.
  - destruct (getmtime w g) as [m|c]; cbn [mbind result_bind]; [|discriminate].
    destruct (cutoff_time w hours) as [cutoff|c]; cbn [mbind result_bind];
      [|discriminate].
    destruct (timestamp_of w cutoff) as [limit|c]; cbn [mbind result_bind];
      [|discriminate].
    destruct (QArith_base.Qle_bool limit m); [|apply IH].
    destruct (open_read w g) as [log_text|c]; cbn [mbind result_bind];
      [|discriminate].
    destruct (analyze_log (classifier w) log_text) as [d|c];
      cbn [mbind result_bind]; [|discriminate].
    destruct (fromtimestamp_isoformat w m) as [ts|c];
      cbn [mbind result_bind]; [|discriminate].
    intros H. apply IH in H as [more ->]. eexists. by rewrite <- app_assoc.
Qed.



(** X18: with no log directory, no syslog file and three silent services,
    the consolidated analysis returns the empty healthy report: no issue, no
    source, all counts zero. *)
Theorem analyze_all_nothing_to_read w hours :
  path_exists w "/logs/embedded-cluster" = false →
  path_exists w "/logs/embedded-cluster-data/logs" = false →
  path_exists w "/logs/pods" = false →
  path_exists w "/logs/syslog" = false →
  Forall (fun service => journalctl w service hours = Ok EmptyString) SERVICES →
  analyze_all w hours
  = Ok {| critical_issues := [];
          warnings := [];
          system_status := {| status := "healthy";
                              critical_issues_count := 0;
                              warnings_count := 0;
                              log_sources_available := 0 |};
          log_sources_analyzed := [];
          response_timestamp := now_isoformat w |}.
Proof.
  intros H1 H2 H3 H4 Hservices.
  assert (He : analyze_embedded_cluster_logs w hours = Ok []).
  { unfold analyze_embedded_cluster_logs, dir_logs. rewrite H1, H2.
    cbn [mbind result_bind]. unfold SERVICES in *.
    apply Forall_cons in Hservices as [Hs1 Hservices].
    apply Forall_cons in Hservices as [Hs2 Hservices].
    apply Forall_cons in Hservices as [Hs3 _].
    cbn [service_loop]. unfold get_journalctl_logs.
    by rewrite Hs1, Hs2, Hs3. }
  assert (Hp : analyze_pod_logs w None None hours = Ok []).
  { unfold analyze_pod_logs, get_pod_logs. by rewrite H3. }
  assert (Hs : ∃ detail, analyze_syslog w hours = Raise (HTTPException 500 detail)).
  { unfold analyze_syslog. cbv zeta. rewrite H4. by eexists. }
  destruct Hs as [detail Hs].
  unfold analyze_all, analyze_all_logs, collect.
  by rewrite He, Hp, Hs.
Qed.
End EmbeddedCluster.

(** ** Paths of pod logs *)

Section PodPaths.
Import PyStr ModelLoader ApiServer Endpoints.

Lemma join_appends path b : ∃ prefix, PosixPath.join path b = prefix +:+ b.
Proof.
  unfold PosixPath.join. destruct (startswith "/" b).
  - by exists EmptyString.
  - destruct (is_empty path || PosixPath.ends_with_sep path).
    + by exists path.
    + exists (path +:+ "/"). by rewrite append_assoc.
Qed.

Lemma ends_with_sep_app s c t :
  PosixPath.ends_with_sep (s +:+ String c t)
  = PosixPath.ends_with_sep (String c t).
Proof.
  induction s as [|a s IH]; [done|].
  rewrite append_cons. rewrite <- IH.
  destruct s; reflexivity.
Qed.

Lemma is_empty_app_cons s c t : is_empty (s +:+ String c t) = false.
Proof. by destruct s. Qed.

(** Joining a relative component to a directory that is not empty and does
    not end with a separator puts one separator between them. *)
Lemma join_relative path b :
  startswith "/" b = false →
  is_empty path = false →
  PosixPath.ends_with_sep path = false →
  PosixPath.join path b = path +:+ "/" +:+ b.
Proof. intros Hb Hp Hs. unfold PosixPath.join. by rewrite Hb, Hp, Hs. Qed.

(** X19: the glob pattern of [get_pod_logs] always ends with "*.log"; a
    filter that is the empty string counts as no filter; and under a log
    directory that is not empty and does not end with a separator, a
    namespace that does not start with "/" and a pod name, both non-empty,
    give the pattern dir/namespace_*/*_pod_*/*.log. *)
Theorem search_pattern_shape log_dir namespace pod_name :
  (∃ prefix, search_pattern log_dir namespace pod_name = prefix +:+ "*.log")
  ∧ search_pattern log_dir (Some EmptyString) pod_name
    = search_pattern log_dir None pod_name
  ∧ search_pattern log_dir namespace (Some EmptyString)
    = search_pattern log_dir namespace None
  ∧ ∀ ns pn,
      namespace = Some ns → pod_name = Some pn →
      is_empty log_dir = false → PosixPath.ends_with_sep log_dir = false →
      is_empty ns = false → startswith "/" ns = false →
      is_empty pn = false →
      search_pattern log_dir namespace pod_name
      = log_dir +:+ "/" +:+ (ns +:+ "_*") +:+ "/" +:+ ("*_" +:+ pn +:+ "_*")
        +:+ "/" +:+ "*.log".
Proof.
  split_and!.
  - unfold search_pattern. cbv zeta. apply join_appends.
  - reflexivity.
  - reflexivity.
  - intros ns pn -> -> Hdir Hsep Hns Habs Hpn.
    unfold search_pattern, truthy. cbv zeta. rewrite Hns, Hpn. cbn [negb].
    assert (Hns_rel : startswith "/" (ns +:+ "_*") = false).
    { destruct ns as [|c ns]; [discriminate Hns|]. exact Habs. }
    rewrite (join_relative log_dir (ns +:+ "_*") Hns_rel Hdir Hsep).
    assert (Hstep : ∀ p b, PosixPath.join (p +:+ "/" +:+ (b +:+ "_*")) "*.log"
                           = p +:+ "/" +:+ (b +:+ "_*") +:+ "/" +:+ "*.log"
                           ∧ ∀ c, PosixPath.join (p +:+ "/" +:+ (b +:+ "_*")) c
                                  = if startswith "/" c then c
                                    else p +:+ "/" +:+ (b +:+ "_*") +:+ "/" +:+ c).
    { intros p b.
      assert (He : is_empty (p +:+ "/" +:+ (b +:+ "_*")) = false).
      { change ("/" +:+ (b +:+ "_*")) with (String "/" (b +:+ "_*")).
        apply is_empty_app_cons. }
      assert (Hs : PosixPath.ends_with_sep (p +:+ "/" +:+ (b +:+ "_*")) = false).
      { rewrite <- !append_assoc.
        change "_*" with (String "_" "*").
        by rewrite ends_with_sep_app. }
      split.
      - unfold PosixPath.join. rewrite He, Hs. cbn [orb].
        change (startswith "/" "*.log") with false. cbv iota.
        by rewrite !append_assoc.
      - intros c. unfold PosixPath.join. rewrite He, Hs. cbn [orb].
        destruct (startswith "/" c); [done|]. by rewrite !append_assoc. }
    destruct (Hstep log_dir ns) as [_ Hjoin]. rewrite Hjoin.
    change (startswith "/" ("*_" +:+ pn +:+ "_*")) with false. cbv iota.
    rewrite <- (append_assoc "*_" pn "_*").
    assert (Hfinal : ∀ p, PosixPath.ends_with_sep (p +:+ "_*") = false
                          ∧ is_empty (p +:+ "_*") = false).
    { intros p. change "_*" with (String "_" "*").
      by rewrite ends_with_sep_app, is_empty_app_cons. }
    unfold PosixPath.join at 1.
    change (startswith "/" "*.log") with false. cbv iota.
    rewrite <- !append_assoc.
    destruct (Hfinal (log_dir +:+ "/" +:+ ns +:+ "_*" +:+ "/" +:+ "*_" +:+ pn))
      as [Hs He].
    rewrite <- !append_assoc in Hs, He. rewrite Hs, He. cbn [orb].
    reflexivity.
Qed.

(** The parts of a path after a component that has no separator. *)
Lemma split_from_app cur a rest :
  PosixPath.split_from cur (a +:+ String "/" rest)
  = PosixPath.split_from cur a ++ PosixPath.split_from EmptyString rest.
Proof.
  revert cur. induction a as [|c a IH]; intros cur.
  - reflexivity.
  - rewrite append_cons. cbn [PosixPath.split_from].
    destruct (ascii_dec c "/"); by rewrite IH.
Qed.

Lemma split_from_no_sep s : ∀ cur,
  Props.no_sep s = true → PosixPath.split_from cur s = [cur +:+ s].
Proof.
  unfold Props.no_sep.
  induction s as [|c s IH]; intros cur; cbn [chars forallb PosixPath.split_from].
  - by rewrite append_nil_r.
  - destruct (ascii_dec c "/"); [discriminate|]. cbn [andb]. intros Hs.
    rewrite (IH _ Hs). by rewrite append_assoc.
Qed.

Lemma basename_from_app cur a rest :
  PosixPath.basename_from cur (a +:+ String "/" rest)
  = PosixPath.basename_from EmptyString rest.
Proof.
  revert cur. induction a as [|c a IH]; intros cur.
  - reflexivity.
  - rewrite append_cons. cbn [PosixPath.basename_from].
    destruct (ascii_dec c "/"); by rewrite IH.
Qed.

Lemma basename_from_no_sep s : ∀ cur,
  Props.no_sep s = true → PosixPath.basename_from cur s = cur +:+ s.
Proof.
  unfold Props.no_sep.
  induction s as [|c s IH]; intros cur;
    cbn [chars forallb PosixPath.basename_from].
  - by rewrite append_nil_r.
  - destruct (ascii_dec c "/"); [discriminate|]. cbn [andb]. intros Hs.
    rewrite (IH _ Hs). by rewrite append_assoc.
Qed.

Lemma pod_info_two_components dir d f :
  Props.no_sep d = true → Props.no_sep f = true →
  pod_info (dir +:+ "/" +:+ d +:+ "/" +:+ f) = d
  ∧ PosixPath.basename (dir +:+ "/" +:+ d +:+ "/" +:+ f) = f.
Proof.
  intros Hd Hf. split.
  - unfold pod_info, PosixPath.split. cbv zeta.
    change (dir +:+ "/" +:+ d +:+ "/" +:+ f)
      with (dir +:+ String "/" (d +:+ String "/" f)).
    rewrite !split_from_app, (split_from_no_sep d _ Hd),
      (split_from_no_sep f _ Hf).
    rewrite !length_app. cbn [length app].
    destruct (1 <? Z.of_nat (length (PosixPath.split_from EmptyString dir)
                             + (1 + 1)))
      eqn:Hlen; [|apply Z.ltb_ge in Hlen; lia].
    replace (length (PosixPath.split_from EmptyString dir) + (1 + 1) - 2)%nat
      with (length (PosixPath.split_from EmptyString dir) + 0)%nat by lia.
    by rewrite app_nth2_plus.
  - unfold PosixPath.basename.
    change (dir +:+ "/" +:+ d +:+ "/" +:+ f)
      with (dir +:+ String "/" (d +:+ String "/" f)).
    by rewrite !basename_from_app, (basename_from_no_sep f _ Hf).
Qed.

(** X20: the name of a pod entry is made of the last two components of the
    path of its log file, directory then file; a path with no separator is
    filed under "unknown". *)
Theorem pod_entry_filename w log_file entry :
  pod_entry w log_file = Ok entry →
  (∀ dir d f,
     log_file = dir +:+ "/" +:+ d +:+ "/" +:+ f →
     Props.no_sep d = true → Props.no_sep f = true →
     filename entry = d +:+ "/" +:+ f)
  ∧ (Props.no_sep log_file = true →
     filename entry = "unknown" +:+ "/" +:+ log_file).
Proof.
  unfold pod_entry.
  destruct (open_read w log_file) as [log_text|c]; cbn [mbind result_bind];
    [|discriminate].
  destruct (analyze_log (classifier w) log_text) as [d0|c];
    cbn [mbind result_bind]; [|discriminate].
  destruct (getmtime w log_file) as [m|c]; cbn [mbind result_bind];
    [|discriminate].
  destruct (fromtimestamp_isoformat w m) as [ts|c]; cbn [mbind result_bind];
    [|discriminate].
  intros H. injection H as <-. cbn [filename]. split.
  - intros dir d f -> Hd Hf.
    by destruct (pod_info_two_components dir d f Hd Hf) as [-> ->].
  - intros Hp. unfold pod_info, PosixPath.split, PosixPath.basename. cbv zeta.
    by rewrite (split_from_no_sep _ _ Hp), (basename_from_no_sep _ _ Hp).
Qed.
End PodPaths.

(** ** The endpoints, run on sample systems *)

Section EndpointRuns.
Import PyStr ModelLoader ApiServer Endpoints.

Lemma analyze_all_logs_accounts_witness :
  critical_issues_count (system_status Samples.report_sample)
  + warnings_count (system_status Samples.report_sample) = 2.
Proof.
  destruct (analyze_all_logs_accounts
              Samples.embedded_sample Samples.pods_sample Samples.syslog_sample
              "2025-01-01T00:00:00" Samples.str_sample 24 Samples.report_sample)
    as (embedded_logs & pod_logs & He & Hp & Hsum).
  - by vm_compute.
  - rewrite Hsum. injection He as <-. injection Hp as <-. by vm_compute.
Defined.

Lemma analyze_all_logs_sources_witness :
  log_sources_analyzed Samples.report_sample = ["embedded-cluster"]
  ∧ 0 ≤ log_sources_available (system_status Samples.report_sample) ≤ 3.
Proof.
  destruct (analyze_all_logs_sources
              Samples.embedded_sample Samples.pods_sample Samples.syslog_sample
              "2025-01-01T00:00:00" Samples.str_sample 24 Samples.report_sample)
    as (embedded_logs & pod_logs & He & Hp & Hs & _ & Hn).
  - by vm_compute.
  - split; [|exact Hn]. rewrite Hs. injection He as <-. injection Hp as <-.
    by vm_compute.
Defined.


Lemma get_pod_logs_contains_failures_witness :
  get_pod_logs SampleWorld.cluster "/logs/pods" (Some "default") None 24
  = Ok (omap (Props.entry_of SampleWorld.cluster)
          [SampleWorld.app_log; SampleWorld.db_log],
        ["Error reading log file /logs/pods/default_db_2/db.log: Permission denied"]).
Proof.
  destruct (get_pod_logs_contains_failures SampleWorld.cluster "/logs/pods"
              (Some "default") None 24 26%Z (SampleWorld.q 26)) as [H _].
  - reflexivity.
  - reflexivity.
  - reflexivity.
  - vm_compute. repeat constructor; by eexists.
  - rewrite H. by vm_compute.
Defined.

Lemma analyze_embedded_cluster_logs_aborts_witness :
  ∃ cause,
    analyze_embedded_cluster_logs SampleWorld.locked 24
    = Raise (HTTPException 500
               ("Error analyzing embedded-cluster logs: "
                +:+ str SampleWorld.locked cause)).
Proof.
  apply (analyze_embedded_cluster_logs_aborts SampleWorld.locked 24
           "/logs/embedded-cluster" "/logs/embedded-cluster/install.log"
           (SampleWorld.q 100) 26%Z (SampleWorld.q 26)
           (Exception "Permission denied")).
  - by left.
  - reflexivity.
  - vm_compute. by left.
  - reflexivity.
  - reflexivity.
  - reflexivity.
  - reflexivity.
  - reflexivity.
Defined.


Lemma analyze_all_nothing_to_read_witness :
  ∃ report,
    analyze_all SampleWorld.bare 24 = Ok report
    ∧ status (system_status report) = "healthy"
    ∧ log_sources_analyzed report = [].
Proof.
  eexists. split.
  - apply (analyze_all_nothing_to_read SampleWorld.bare 24); try reflexivity.
    repeat constructor.
  - by split.
Defined.

Lemma pod_entry_filename_witness :
  filename SampleWorld.app_entry = "default_web_1" +:+ "/" +:+ "app.log".
Proof.
  destruct (pod_entry_filename SampleWorld.cluster SampleWorld.app_log
              SampleWorld.app_entry) as [Hname _].
  - by vm_compute.
  - apply (Hname "/logs/pods"); reflexivity.
Defined.
End EndpointRuns.
